(** * AI News Perspectives: the fetch-and-normalize pipeline

    A shallow embedding of the retry client ([groqResponse]), the response
    sanitizer and parser and the article mapping of the news screen, the
    vendor mapping ([mapApiArticleToNewsArticle]) and the perspective
    renderer ([generateFullAIArticle]), with the properties the
    specification states about them.

    JavaScript strings are sequences of UTF-16 code units; [length],
    [substring], [split], [startsWith], [includes] and the regular
    expressions of the source (none has the [u] flag) all work on code
    units, so a string is a [list N] here. *)

From Stdlib Require Import String Ascii DecimalString DecimalNat.
From Stdlib Require Import List NArith ZArith Bool Arith Lia.
Import ListNotations.

Set Implicit Arguments.
Set Warnings "-register-all".

(** ** JavaScript strings *)

Module JsString.

Definition jsstring := list N.

(** A literal of the source, written as a Rocq string of ASCII characters. *)
Fixpoint lit (s : string) : jsstring :=
  match s with
  | EmptyString => []
  | String a r => N_of_ascii a :: lit r
  end.

Definition LF : N := 10.
Definition QUOTE : N := 34.
Definition BACKTICK : N := 96.

Fixpoint eqb (s t : jsstring) : bool :=
  match s, t with
  | [], [] => true
  | c :: s', d :: t' => N.eqb c d && eqb s' t'
  | _, _ => false
  end.

(** [s.startsWith(p)] *)
Fixpoint startsWith (p s : jsstring) : bool :=
  match p, s with
  | [], _ => true
  | c :: p', d :: s' => N.eqb c d && startsWith p' s'
  | _ :: _, [] => false
  end.

(** [s.includes(p)] *)
Fixpoint includes (p s : jsstring) : bool :=
  startsWith p s ||
  match s with
  | [] => false
  | _ :: s' => includes p s'
  end.

(** [s.substring(0, n)] *)
Definition substring0 (n : nat) (s : jsstring) : jsstring := firstn n s.

(** The WhiteSpace and LineTerminator code points of ECMAScript, which
    [trim] strips from both ends. *)
Definition isWhiteSpace (c : N) : bool :=
  ((9 <=? c) && (c <=? 13) || (c =? 32) || (c =? 160) || (c =? 5760)
   || (8192 <=? c) && (c <=? 8202) || (c =? 8232) || (c =? 8233)
   || (c =? 8239) || (c =? 8287) || (c =? 12288) || (c =? 65279))%N.

Fixpoint trimStart (s : jsstring) : jsstring :=
  match s with
  | [] => []
  | c :: s' => if isWhiteSpace c then trimStart s' else s
  end.

Definition trimEnd (s : jsstring) : jsstring := rev (trimStart (rev s)).

Definition trim (s : jsstring) : jsstring := trimEnd (trimStart s).

(** [s.replace(re, '')] for a global regular expression [re] that never
    matches the empty string: [m s] is the length of the match of [re] at
    the head of [s], 0 when there is none.  Matches are taken left to
    right and do not overlap; [skip] counts the code units of the current
    match still to be dropped. *)
Fixpoint removeAll_go (m : jsstring -> nat) (skip : nat) (s : jsstring)
  : jsstring :=
  match s with
  | [] => []
  | c :: s' =>
      match skip with
      | S k => removeAll_go m k s'
      | O =>
          match m s with
          | O => c :: removeAll_go m 0 s'
          | S k => removeAll_go m k s'
          end
      end
  end.

Definition removeAll (m : jsstring -> nat) (s : jsstring) : jsstring :=
  removeAll_go m 0 s.

(** [s.split(sep)] for a non-empty separator: [cur] holds the current
    piece, reversed; [skip] the code units of the separator still to be
    dropped. *)
Fixpoint split_go (sep : jsstring) (skip : nat) (cur s : jsstring)
  : list jsstring :=
  match s with
  | [] => [rev cur]
  | c :: s' =>
      match skip with
      | S k => split_go sep k cur s'
      | O =>
          if startsWith sep s
          then rev cur :: split_go sep (length sep - 1) [] s'
          else split_go sep 0 (c :: cur) s'
      end
  end.

Definition split (sep s : jsstring) : list jsstring :=
  match sep with
  | [] => map (fun c => [c]) s
  | _ :: _ => split_go sep 0 [] s
  end.

(** [x || y] where [x] is a string or [undefined]: the empty string and
    [undefined] are falsy. *)
Definition orElse (x : option jsstring) (y : jsstring) : jsstring :=
  match x with
  | Some (c :: s) => c :: s
  | _ => y
  end.

(** [x || y] on strings. *)
Definition orStr (x y : jsstring) : jsstring :=
  match x with
  | [] => y
  | _ :: _ => x
  end.

(** [String(n)] for a non-negative integer. *)
Definition ofNat (n : nat) : jsstring :=
  lit (NilEmpty.string_of_uint (Nat.to_uint n)).

Definition ofZ (z : Z) : jsstring :=
  lit (NilEmpty.string_of_int (Z.to_int z)).

End JsString.

Import JsString.

(** ** Response sanitizer (news screen, the [aiResponse] effect) *)

Definition isControl (c : N) : bool := (c <=? 31)%N.

(** The match of [/```json\n?/] at the head of [s]. *)
Definition fenceJson (s : jsstring) : nat :=
  if startsWith (lit "```json") s
  then match skipn 7 s with
       | c :: _ => if N.eqb c LF then 8 else 7
       | [] => 7
       end
  else 0.

(** The match of [/```\n?/] at the head of [s]. *)
Definition fence (s : jsstring) : nat :=
  if startsWith (lit "```") s
  then match skipn 3 s with
       | c :: _ => if N.eqb c LF then 4 else 3
       | [] => 3
       end
  else 0.

(** [aiText.replace(/```json\n?/g, '').replace(/```\n?/g, '').trim()] *)
Definition stripFences (s : jsstring) : jsstring :=
  trim (removeAll fence (removeAll fenceJson s)).

(** [aiText.replace(/[\u0000-\u001F]/g, '')] *)
Definition removeControl (s : jsstring) : jsstring :=
  filter (fun c => negb (isControl c)) s.

(** The text handed to the decoder: [String(params.aiResponse).trim()],
    then the two fence replacements and [trim], then the removal of the
    control characters. *)
Definition cleanAiText (raw : jsstring) : jsstring :=
  removeControl (stripFences (trim raw)).

(** ** The runtime's [JSON.parse]

    The decoder is the JavaScript runtime's; it is modelled by a recursive
    descent over the JSON grammar of ECMA-404, which [JSON.parse]
    implements.  A number keeps its lexeme: its floating-point value plays
    no part in the properties below.  An object keeps its members in
    source order; a property read takes the last member with that name. *)

Module Json.

Inductive JValue : Type :=
| JNull
| JBool (b : bool)
| JNumber (lexeme : jsstring)
| JString (s : jsstring)
| JArray (elems : list JValue)
| JObject (members : list (jsstring * JValue)).

Inductive result (A : Type) : Type :=
| Parsed (a : A) (rest : jsstring)
| SyntaxError
| OutOfFuel.

Arguments SyntaxError {A}.
Arguments OutOfFuel {A}.

Definition isJsonSpace (c : N) : bool :=
  ((c =? 32) || (c =? 9) || (c =? 10) || (c =? 13))%N.

Fixpoint skip_ws (s : jsstring) : jsstring :=
  match s with
  | [] => []
  | c :: s' => if isJsonSpace c then skip_ws s' else s
  end.

(** The rest of [s] after the code unit [c], when [s] starts with it. *)
Definition expect (c : N) (s : jsstring) : option jsstring :=
  match s with
  | d :: r => if N.eqb c d then Some r else None
  | [] => None
  end.

Definition isDigit (c : N) : bool := ((48 <=? c) && (c <=? 57))%N.

Definition hexval (c : N) : option N :=
  if isDigit c then Some (c - 48)%N
  else if ((97 <=? c) && (c <=? 102))%N then Some (c - 87)%N
  else if ((65 <=? c) && (c <=? 70))%N then Some (c - 55)%N
  else None.

Definition hex4 (a b c d : N) : option N :=
  match hexval a, hexval b, hexval c, hexval d with
  | Some x, Some y, Some z, Some w => Some (4096 * x + 256 * y + 16 * z + w)%N
  | _, _, _, _ => None
  end.

(** The character a one-letter escape stands for. *)
Definition unescape (e : N) : option N :=
  if (e =? 34)%N then Some 34%N
  else if (e =? 92)%N then Some 92%N
  else if (e =? 47)%N then Some 47%N
  else if (e =? 98)%N then Some 8%N
  else if (e =? 102)%N then Some 12%N
  else if (e =? 110)%N then Some 10%N
  else if (e =? 114)%N then Some 13%N
  else if (e =? 116)%N then Some 9%N
  else None.

(** The characters of a string literal after its opening quote, up to the
    closing quote; [acc] is the decoded text so far, reversed. *)
Fixpoint parse_chars (s acc : jsstring) : option (jsstring * jsstring) :=
  match s with
  | [] => None
  | c :: r =>
      if (c =? 34)%N then Some (rev acc, r)
      else if (c =? 92)%N then
        match r with
        | [] => None
        | e :: r1 =>
            if (e =? 117)%N then
              match r1 with
              | h1 :: h2 :: h3 :: h4 :: r2 =>
                  match hex4 h1 h2 h3 h4 with
                  | Some u => parse_chars r2 (u :: acc)
                  | None => None
                  end
              | _ => None
              end
            else
              match unescape e with
              | Some u => parse_chars r1 (u :: acc)
              | None => None
              end
        end
      else if (c <? 32)%N then None
      else parse_chars r (c :: acc)
  end.

Fixpoint digits (s : jsstring) : jsstring * jsstring :=
  match s with
  | [] => ([], [])
  | c :: r =>
      if isDigit c then let (ds, r') := digits r in (c :: ds, r')
      else ([], s)
  end.

(** An optional minus sign, then a single zero or a digit from 1 to 9
    followed by any digits. *)
Definition parse_int (s : jsstring) : option (jsstring * jsstring) :=
  let (sign, s1) := match expect 45 s with
                    | Some r => ([45%N], r)
                    | None => ([], s)
                    end in
  match s1 with
  | [] => None
  | c :: r =>
      if (c =? 48)%N then Some (sign ++ [c], r)
      else if isDigit c then
        let (ds, r') := digits r in Some (sign ++ c :: ds, r')
      else None
  end.

(** An optional fraction: a point and at least one digit. *)
Definition parse_frac (s : jsstring) : option (jsstring * jsstring) :=
  match expect 46 s with
  | Some r =>
      match digits r with
      | ([], _) => None
      | (ds, r') => Some (46%N :: ds, r')
      end
  | None => Some ([], s)
  end.

(** An optional exponent: e or E, an optional sign, at least one digit. *)
Definition parse_exp (s : jsstring) : option (jsstring * jsstring) :=
  match s with
  | e :: r =>
      if ((e =? 101) || (e =? 69))%N then
        let (sign, r1) :=
          match r with
          | g :: r0 =>
              if ((g =? 43) || (g =? 45))%N then ([g], r0) else ([], r)
          | [] => ([], r)
          end in
        match digits r1 with
        | ([], _) => None
        | (ds, r') => Some (e :: sign ++ ds, r')
        end
      else Some ([], s)
  | [] => Some ([], s)
  end.

Definition parse_number (s : jsstring) : option (jsstring * jsstring) :=
  match parse_int s with
  | None => None
  | Some (i, r1) =>
      match parse_frac r1 with
      | None => None
      | Some (f, r2) =>
          match parse_exp r2 with
          | None => None
          | Some (e, r3) => Some (i ++ f ++ e, r3)
          end
      end
  end.

(** The elements of an array after the first has been found to exist:
    values separated by commas, up to the closing bracket.  [pv] parses
    one value. *)
Fixpoint elements (pv : jsstring -> result JValue) (n : nat)
  (s : jsstring) (acc : list JValue) : result (list JValue) :=
  match n with
  | O => OutOfFuel
  | S n' =>
      match pv s with
      | Parsed v r =>
          match skip_ws r with
          | c :: r' =>
              if (c =? 44)%N then elements pv n' r' (v :: acc)
              else if (c =? 93)%N then Parsed (rev (v :: acc)) r'
              else SyntaxError
          | [] => SyntaxError
          end
      | SyntaxError => SyntaxError
      | OutOfFuel => OutOfFuel
      end
  end.

(** The members of an object: name, colon and value, separated by commas,
    up to the closing brace. *)
Fixpoint members (pv : jsstring -> result JValue) (n : nat)
  (s : jsstring) (acc : list (jsstring * JValue))
  : result (list (jsstring * JValue)) :=
  match n with
  | O => OutOfFuel
  | S n' =>
      match expect 34 (skip_ws s) with
      | None => SyntaxError
      | Some r =>
          match parse_chars r [] with
          | None => SyntaxError
          | Some (k, r1) =>
              match expect 58 (skip_ws r1) with
              | None => SyntaxError
              | Some r2 =>
                  match pv r2 with
                  | Parsed v r3 =>
                      match skip_ws r3 with
                      | c :: r4 =>
                          if (c =? 44)%N
                          then members pv n' r4 ((k, v) :: acc)
                          else if (c =? 125)%N
                          then Parsed (rev ((k, v) :: acc)) r4
                          else SyntaxError
                      | [] => SyntaxError
                      end
                  | SyntaxError => SyntaxError
                  | OutOfFuel => OutOfFuel
                  end
              end
          end
      end
  end.

Definition keyword (w : string) (v : JValue) (s : jsstring)
  : result JValue :=
  if startsWith (lit w) s then Parsed v (skipn (List.length (lit w)) s)
  else SyntaxError.

Fixpoint parse_value (fuel : nat) (s : jsstring) : result JValue :=
  match fuel with
  | O => OutOfFuel
  | S f =>
      match skip_ws s with
      | [] => SyntaxError
      | c :: r =>
          if (c =? 123)%N then
            match expect 125 (skip_ws r) with
            | Some r' => Parsed (JObject []) r'
            | None =>
                match members (parse_value f) f r [] with
                | Parsed m r' => Parsed (JObject m) r'
                | SyntaxError => SyntaxError
                | OutOfFuel => OutOfFuel
                end
            end
          else if (c =? 91)%N then
            match expect 93 (skip_ws r) with
            | Some r' => Parsed (JArray []) r'
            | None =>
                match elements (parse_value f) f r [] with
                | Parsed l r' => Parsed (JArray l) r'
                | SyntaxError => SyntaxError
                | OutOfFuel => OutOfFuel
                end
            end
          else if (c =? 34)%N then
            match parse_chars r [] with
            | Some (str, r') => Parsed (JString str) r'
            | None => SyntaxError
            end
          else if (c =? 116)%N then keyword "true" (JBool true) (c :: r)
          else if (c =? 102)%N then keyword "false" (JBool false) (c :: r)
          else if (c =? 110)%N then keyword "null" JNull (c :: r)
          else
            match parse_number (c :: r) with
            | Some (lexeme, r') => Parsed (JNumber lexeme) r'
            | None => SyntaxError
            end
      end
  end.

(** Every level of nesting and every element consumes a code unit, so
    one unit of fuel per code unit, and one more, is enough
    ([parse_value_fuel] below). *)
Definition fuel_for (s : jsstring) : nat := S (List.length s).

(** [JSON.parse(s)]; [None] when it throws a [SyntaxError]. *)
Definition JSON_parse (s : jsstring) : option JValue :=
  match parse_value (fuel_for s) s with
  | Parsed v r =>
      match skip_ws r with
      | [] => Some v
      | _ :: _ => None
      end
  | _ => None
  end.

(** The own property [k] of an object: with duplicate names the last
    member wins. *)
Fixpoint lookup (k : jsstring) (m : list (jsstring * JValue))
  : option JValue :=
  match m with
  | [] => None
  | (k', v) :: m' =>
      match lookup k m' with
      | Some w => Some w
      | None => if JsString.eqb k k' then Some v else None
      end
  end.

(** The own property [k] of a decoded value; [None] is [undefined]. *)
Definition field (k : jsstring) (v : JValue) : option JValue :=
  match v with
  | JObject m => lookup k m
  | _ => None
  end.

End Json.

Import Json.

(** ** Response parser (news screen, the [aiResponse] effect) *)

(** [{ "Generated article": aiText }] *)
Definition syntheticRecord (aiText : jsstring) : JValue :=
  JObject [(lit "Generated article", JString aiText)].

(** The guard [if (params.aiResponse)] and, under it, the [try]/[catch]
    of the effect: the value of [aiArticles] when it ends, and [None]
    when the response is [undefined] or the empty string, so that
    nothing is parsed.  The response is a parameter of the route that
    occurs once, which the router gives as a string.  None of the
    cleaning steps throws, so [aiText] is the cleaned text in the
    handler as well.  The inner [match] is
    [Array.isArray(parsed) ? parsed : [parsed]]. *)
Definition parseAiResponse (aiResponse : option jsstring)
  : option (list JValue) :=
  match aiResponse with
  | Some (c :: r) =>
      let aiText := cleanAiText (c :: r) in
      Some
        (if startsWith (lit "[") aiText || startsWith (lit "{") aiText then
           match JSON_parse aiText with
           | Some parsed =>
               match parsed with
               | JArray elems => elems
               | _ => [parsed]
               end
           | None => [syntheticRecord aiText]
           end
         else [syntheticRecord aiText])
  | _ => None
  end.

(** ** Article normalizer *)

(** The [NewsArticle] interface of the news screen: every field is
    optional; [None] is an absent field. *)
Record NewsArticle : Type := mkNewsArticle {
  id : option jsstring;
  title : option jsstring;
  originalTitle : option jsstring;
  summary : option jsstring;
  originalSummary : option jsstring;
  imageUrl : option jsstring;
  publishedAt : option jsstring;
  originalUrl : option jsstring;
  source : option jsstring;
  aiGenerated : option bool;
  Generated_article : option jsstring;
  Input_person_name : option jsstring;
  Timestamp : option jsstring;
  Source_URL : option jsstring
}.

(** An object with none of the fields. *)
Definition emptyArticle : NewsArticle :=
  mkNewsArticle None None None None None None None None None None
                None None None None.

(** [a[0]] for the result of [split], which is never empty. *)
Definition at0 (a : list jsstring) : jsstring := hd [] a.

(** A string in a condition: the empty string is falsy. *)
Definition truthy (s : jsstring) : bool :=
  match s with
  | [] => false
  | _ :: _ => true
  end.

Definition newsImages : list jsstring :=
  [ lit "https://images.pexels.com/photos/518543/pexels-photo-518543.jpeg?auto=compress&cs=tinysrgb&w=800";
    lit "https://images.pexels.com/photos/1591056/pexels-photo-1591056.jpeg?auto=compress&cs=tinysrgb&w=800";
    lit "https://images.pexels.com/photos/1591447/pexels-photo-1591447.jpeg?auto=compress&cs=tinysrgb&w=800";
    lit "https://images.pexels.com/photos/1591061/pexels-photo-1591061.jpeg?auto=compress&cs=tinysrgb&w=800";
    lit "https://images.pexels.com/photos/163064/play-stone-network-networked-interactive-163064.jpeg?auto=compress&cs=tinysrgb&w=800" ].

(** [newsImages[index % newsImages.length]] *)
Definition getRandomNewsImage (index : nat) : option jsstring :=
  nth_error newsImages (index mod List.length newsImages).

Definition ELLIPSIS : jsstring := lit "...".

(** The [title] variable of the mapping callback. *)
Definition deriveTitle (generatedContent : jsstring) : jsstring :=
  if truthy generatedContent then
    let firstSentence := at0 (split (lit ".") generatedContent) in
    if 80 <? List.length firstSentence
    then substring0 60 generatedContent ++ ELLIPSIS
    else firstSentence ++ lit "."
  else [].

(** The [summary] variable of the mapping callback. *)
Definition deriveSummary (generatedContent : jsstring) : jsstring :=
  if truthy generatedContent then
    let firstParagraph :=
      orStr (at0 (split [LF; LF] generatedContent))
            (at0 (split [LF] generatedContent)) in
    if 200 <? List.length firstParagraph
    then substring0 200 firstParagraph ++ ELLIPSIS
    else firstParagraph
  else [].

(** The callback of [aiArticles.map] in the news screen. *)
Definition mapAiArticle (selectedPerson : jsstring)
  (article : NewsArticle) (idx : nat) : NewsArticle :=
  let generatedContent := orElse (Generated_article article) [] in
  let title := deriveTitle generatedContent in
  let summary := deriveSummary generatedContent in
  {| id := Some (ofNat (idx + 1));
     title := Some (orStr title
                (selectedPerson ++ lit "'s Perspective on Current Events"));
     originalTitle := Some [];
     summary := Some (orStr summary
                  (substring0 200 generatedContent ++ ELLIPSIS));
     originalSummary := Some [];
     imageUrl := getRandomNewsImage idx;
     publishedAt := Some (orElse (Timestamp article) (lit "Today"));
     originalUrl := Some (orElse (Source_URL article) []);
     source := Some (lit "BBC News");
     aiGenerated := Some true;
     Generated_article := Some generatedContent;
     Input_person_name := Some selectedPerson;
     Timestamp := None;
     Source_URL := None |}.

(** [a.map(f)]: the callback receives each element and its index. *)
Fixpoint mapi_from {A B : Type} (f : A -> nat -> B) (i : nat) (l : list A)
  : list B :=
  match l with
  | [] => []
  | x :: l' => f x i :: mapi_from f (S i) l'
  end.

Definition mapi {A B : Type} (f : A -> nat -> B) (l : list A) : list B :=
  mapi_from f 0 l.

(** [aiArticles.map((article, idx) => ...)] *)
Definition mapAiArticles (selectedPerson : jsstring)
  (aiArticles : list NewsArticle) : list NewsArticle :=
  mapi (mapAiArticle selectedPerson) aiArticles.

(** A record of the news vendor, as far as the mapping reads it. *)
Record ApiArticle : Type := mkApiArticle {
  api_title : option jsstring;
  api_snippet : option jsstring;
  api_thumbnail_url : option jsstring;
  api_link : option jsstring;
  api_source_name : option jsstring;
  api_published_datetime_utc : option jsstring
}.

Definition mapApiArticleToNewsArticle (apiArticle : ApiArticle) (idx : nat)
  : NewsArticle :=
  {| id := Some (ofNat (idx + 1));
     title := None;
     originalTitle := Some (orElse (api_title apiArticle) []);
     summary := None;
     originalSummary := Some (orElse (api_snippet apiArticle) []);
     imageUrl := Some (orElse (api_thumbnail_url apiArticle)
       (lit "https://images.pexels.com/photos/163064/play-stone-network-networked-interactive-163064.jpeg?auto=compress&cs=tinysrgb&w=800"));
     originalUrl := Some (orElse (api_link apiArticle) []);
     source := Some (orElse (api_source_name apiArticle) []);
     publishedAt := Some (orElse (api_published_datetime_utc apiArticle) []);
     aiGenerated := Some false;
     Generated_article := None;
     Input_person_name := None;
     Timestamp := None;
     Source_URL := None |}.

(** [apiArticles.map(mapApiArticleToNewsArticle)] *)
Definition mapApiArticles (apiArticles : list ApiArticle) : list NewsArticle :=
  mapi mapApiArticleToNewsArticle apiArticles.

(** The placeholder of a vendor record without a thumbnail. *)
Definition placeholderImage : jsstring :=
  lit "https://images.pexels.com/photos/163064/play-stone-network-networked-interactive-163064.jpeg?auto=compress&cs=tinysrgb&w=800".

(** A string field that is present and not empty. *)
Definition nonEmpty (x : option jsstring) : Prop :=
  exists c s, x = Some (c :: s).

(** ** HTTP retry client ([groqResponse]) *)

Module Retry.

(** A thrown value: an [Error] with its message; [isTypeError] is
    [error instanceof TypeError]. *)
Record JsError : Type := mkJsError {
  isTypeError : bool;
  message : jsstring
}.

(** [new Error(msg)] *)
Definition newError (msg : jsstring) : JsError := mkJsError false msg.

(** A [TypeError] raised by the runtime on a property read of [null] or
    [undefined].  Its text is the engine's; only its class matters to the
    retry decision. *)
Definition propertyTypeError : JsError :=
  mkJsError true (lit "Cannot read properties of undefined").

(** A response of the endpoint: its status, its body as [text()] gives
    it, and what [json()] gives: the decoded body or the runtime's error. *)
Record Response : Type := mkResponse {
  status : Z;
  text : jsstring;
  json : JsError + JValue
}.

(** [response.ok]: the status is in the range 200 to 299. *)
Definition ok (r : Response) : bool :=
  ((200 <=? status r) && (status r <=? 299))%Z.

(** What [await fetch(...)] does on one attempt. *)
Inductive FetchOutcome : Type :=
| Rejects (e : JsError)
| Resolves (r : Response).

(** What the client does to the outside world. *)
Inductive Event : Type :=
| Fetch (attempt : nat)
| Wait (ms : Z).

Definition MAX_RETRIES : nat := 3.
Definition RETRY_DELAY : Z := 2000.

(** [groqApiKey]: the configured value, [''] when there is none. *)
Definition groqApiKey (configured : option jsstring) : jsstring :=
  match configured with
  | Some k => k
  | None => []
  end.

(** [!groqApiKey || groqApiKey.trim() === ''] *)
Definition keyMissing (key : jsstring) : bool :=
  negb (truthy key) || JsString.eqb (trim key) [].

(** A property read [v.k] for the names [choices], [message] and
    [content], which no prototype defines: [inl] when it throws,
    [inr None] for [undefined]. *)
Definition getMember (k : jsstring) (v : option JValue)
  : JsError + option JValue :=
  match v with
  | None => inl propertyTypeError
  | Some JNull => inl propertyTypeError
  | Some (JObject m) => inr (lookup k m)
  | Some _ => inr None
  end.

(** The read [v[0]]. *)
Definition getIndex0 (v : option JValue) : JsError + option JValue :=
  match v with
  | None => inl propertyTypeError
  | Some JNull => inl propertyTypeError
  | Some (JObject m) => inr (lookup (lit "0") m)
  | Some (JArray l) => inr (hd_error l)
  | Some (JString (c :: _)) => inr (Some (JString [c]))
  | Some _ => inr None
  end.

(** [data.choices[0].message.content] *)
Definition contentOf (data : JValue) : JsError + option JValue :=
  match getMember (lit "choices") (Some data) with
  | inl e => inl e
  | inr choices =>
      match getIndex0 choices with
      | inl e => inl e
      | inr choice =>
          match getMember (lit "message") choice with
          | inl e => inl e
          | inr msg => getMember (lit "content") msg
          end
      end
  end.

(** The error of a 503 on the last attempt: its message embeds the
    status and the body. *)
Definition unavailableError (statusCode : Z) (errorText : jsstring) : JsError :=
  newError
    (lit "Groq service is temporarily unavailable. Please try again in a few minutes. (Error: "
     ++ ofZ statusCode ++ lit " - " ++ errorText ++ lit ")").

(** The error of any other status that is not a success. *)
Definition apiError (statusCode : Z) (errorText : jsstring) : JsError :=
  newError (lit "Groq API error: " ++ ofZ statusCode ++ lit " - " ++ errorText).

(** How the body of one iteration ends: [continue], [return] or [throw]. *)
Inductive Completion : Type :=
| Continue
| Return (aiModel : jsstring) (content : option JValue)
| Throw (e : JsError).

(** The [try] block of iteration [attempt], once [fetch] has resolved. *)
Definition onResponse (aiModel : jsstring) (attempt : nat) (response : Response)
  : list Event * Completion :=
  if negb (ok response) then
    let errorText := text response in
    if (status response =? 503)%Z then
      if attempt <? MAX_RETRIES then
        ([Wait (RETRY_DELAY * Z.of_nat attempt)], Continue)
      else
        ([], Throw (unavailableError (status response) errorText))
    else
      ([], Throw (apiError (status response) errorText))
  else
    match json response with
    | inl e => ([], Throw e)
    | inr data =>
        match contentOf data with
        | inl e => ([], Throw e)
        | inr content => ([], Return aiModel content)
        end
    end.

(** The [catch] block of iteration [attempt]. *)
Definition onError (attempt : nat) (error : JsError)
  : list Event * Completion :=
  if (attempt <? MAX_RETRIES)
     && (isTypeError error || includes (lit "fetch") (message error))
  then ([Wait (RETRY_DELAY * Z.of_nat attempt)], Continue)
  else ([], Throw error).

(** One iteration of the loop: the [try] block, and the [catch] block on
    whatever the [try] block throws. *)
Definition attemptOnce (aiModel : jsstring) (endpoint : nat -> FetchOutcome)
  (attempt : nat) : list Event * Completion :=
  let (ev, c) :=
    match endpoint attempt with
    | Rejects e => ([Fetch attempt], Throw e)
    | Resolves response =>
        let (ev, c) := onResponse aiModel attempt response in
        (Fetch attempt :: ev, c)
    end in
  match c with
  | Throw error =>
      let (ev', c') := onError attempt error in (ev ++ ev', c')
  | _ => (ev, c)
  end.

(** How a call of [groqResponse] ends. *)
Inductive Outcome : Type :=
| Returned (aiModel : jsstring) (content : option JValue)
| Thrown (e : JsError)
| LoopExhausted.

(** [for (let attempt = ...; attempt <= MAX_RETRIES; attempt++)], with
    [remaining] iterations left. *)
Fixpoint retryLoop (aiModel : jsstring) (endpoint : nat -> FetchOutcome)
  (remaining attempt : nat) : list Event * Outcome :=
  match remaining with
  | O => ([], LoopExhausted)
  | S k =>
      let (ev, c) := attemptOnce aiModel endpoint attempt in
      match c with
      | Continue =>
          let (ev', o) := retryLoop aiModel endpoint k (S attempt) in
          (ev ++ ev', o)
      | Return m content => (ev, Returned m content)
      | Throw e => (ev, Thrown e)
      end
  end.

Definition configurationError : JsError :=
  newError (lit "GROQ_API_KEY is not set. Please check your environment configuration.").

(** [groqResponse]: the events it causes and how it ends, for the
    configured key and an endpoint that answers attempt [n] with
    [endpoint n]. *)
Definition groqResponse (configured : option jsstring) (aiModel : jsstring)
  (endpoint : nat -> FetchOutcome) : list Event * Outcome :=
  if keyMissing (groqApiKey configured)
  then ([], Thrown configurationError)
  else retryLoop aiModel endpoint MAX_RETRIES 1.

End Retry.

Import Retry.

(** ** Perspective text renderer ([generateFullAIArticle]) *)

Module Renderer.

Definition einsteinTemplate (title summary : jsstring) : jsstring :=
  lit "
My dear friends,

As I sit in my study, contemplating the intricate dance of particles and waves that governs our universe, I find myself drawn to examine this fascinating development: "
  ++ [QUOTE]
  ++ title
  ++ [QUOTE]
  ++ lit ".

"
  ++ summary
  ++ lit "

From my perspective as a physicist, I see in this situation the same fundamental principles that govern the cosmos. Just as E=mc"
  ++ [178%N]
  ++ lit " reveals the profound relationship between mass and energy, so too does this event illuminate the deeper connections between human endeavor and the natural laws that bind us all.

The curiosity that drives scientific inquiry compels us to ask not merely "
  ++ [QUOTE]
  ++ lit "what"
  ++ [QUOTE]
  ++ lit " has occurred, but "
  ++ [QUOTE]
  ++ lit "why"
  ++ [QUOTE]
  ++ lit " and "
  ++ [QUOTE]
  ++ lit "how."
  ++ [QUOTE]
  ++ lit " In examining these circumstances, we must remember that the universe operates according to principles that transcend our immediate understanding, yet reward patient observation and thoughtful analysis.

I am reminded of my belief that "
  ++ [QUOTE]
  ++ lit "imagination is more important than knowledge."
  ++ [QUOTE]
  ++ lit " While we must ground ourselves in facts and evidence, we must also dare to envision possibilities that extend beyond our current comprehension. This situation presents such an opportunity for intellectual growth.

The responsibility of knowledge weighs heavily upon those who seek to understand the world's complexities. As we witness these developments unfold, we must remember that our role is not merely to observe, but to contribute to the greater understanding of humanity's place in this magnificent cosmos.

With warm regards and endless curiosity,
Albert Einstein
    ".

Definition oprahTemplate (title summary : jsstring) : jsstring :=
  lit "
Hello, beautiful souls!

What moves me most deeply about this story - "
  ++ [QUOTE]
  ++ title
  ++ [QUOTE]
  ++ lit " - is the human element at its very core.

"
  ++ summary
  ++ lit "

Behind every headline, every statistic, every development, there are real people with real dreams, real struggles, and real triumphs. I've learned through my years of connecting with people from all walks of life that our stories are what bind us together.

This situation reminds me of the countless conversations I've had where someone's vulnerability led to breakthrough, where their courage inspired others to find their own strength. The power of authenticity shines through in moments like these.

What I know for sure is that every challenge presents an opportunity for transformation. The individuals affected by these circumstances have within them the power to not just survive, but to thrive. Their stories will inspire others, creating ripples of positive change that extend far beyond what we can imagine.

When I look at this situation, I don't just see facts and figures - I see the beautiful, complex, ever-evolving story of human experience. I see resilience. I see hope. I see the potential for growth and healing.

As we witness these events unfold, I encourage each of us to approach them with empathy, understanding, and a willingness to learn. The greatest gift we can give one another is our presence, our attention, and our belief in the possibility of better days ahead.

This is what I see when I look at this development: not just news, but a reminder of our shared humanity and our incredible capacity for love, growth, and positive change.

Much love and light,
Oprah
    ".

Definition muskTemplate (title summary : jsstring) : jsstring :=
  lit "
Looking at "
  ++ [QUOTE]
  ++ title
  ++ [QUOTE]
  ++ lit " from first principles, we need to break down this problem to its fundamental components.

"
  ++ summary
  ++ lit "

The question I always ask is: what would it take to make this 10 times better? Incremental improvements aren't enough when we're dealing with challenges of this magnitude. We need to think exponentially, not linearly.

From an engineering perspective, every problem is solvable with the right combination of talent, resources, and determination. The key is to identify the biggest bottlenecks and attack them with relentless focus. We can't afford to optimize for the wrong variables.

What excites me about this development is the potential for technological solutions that could fundamentally change how we approach similar challenges in the future. Whether we're talking about sustainable energy, space exploration, or artificial intelligence, the principles remain the same: identify the physics constraints, gather the best team possible, and iterate rapidly.

The timeline for meaningful change is always faster than people think, but slower than we'd like. That's why we need to maintain urgency while also being realistic about the complexity of the problems we're trying to solve.

We're living in the most exciting time in human history. The tools we have access to today - from advanced manufacturing to artificial intelligence to global communication networks - give us unprecedented ability to solve problems that previous generations could only dream of addressing.

The future is going to be wild, and developments like this are just the beginning of what's possible when human ingenuity meets cutting-edge technology.

Let's build something great together.

- Elon
    ".

Definition defaultTemplate (title summary : jsstring) : jsstring :=
  lit "
"
  ++ [QUOTE]
  ++ title
  ++ [QUOTE]
  ++ lit "

"
  ++ summary
  ++ lit "

This development represents a significant moment in our ongoing dialogue about the challenges and opportunities facing our world today. As we examine the various facets of this story, it becomes clear that we are witnessing a convergence of factors that will likely influence how we approach similar situations in the future.

The human element in this story cannot be overlooked. Behind every policy decision, every technological advancement, and every social movement are individuals whose lives are directly affected by these changes. Their experiences provide valuable insights into the real-world implications of these developments.

From a broader perspective, this situation highlights the interconnected nature of our global society. Actions and decisions in one area often have far-reaching consequences that extend well beyond their immediate context. Understanding these connections is crucial for anyone seeking to make informed decisions about the future.

The path forward requires careful consideration of both immediate needs and long-term implications. While it's tempting to focus solely on short-term solutions, sustainable progress often requires us to take a more comprehensive view of the challenges we face.

As we continue to monitor these developments, it's important to maintain both optimism about our collective ability to address complex challenges and realism about the work that lies ahead. The solutions we develop today will shape the world we leave for future generations.
    ".

(** The members every object literal inherits from [Object.prototype]. *)
Inductive ProtoMember : Type :=
| P_constructor
| P_toString
| P_toLocaleString
| P_valueOf
| P_hasOwnProperty
| P_isPrototypeOf
| P_propertyIsEnumerable
| P_defineGetter
| P_defineSetter
| P_lookupGetter
| P_lookupSetter
| P_proto.

Definition protoName (p : ProtoMember) : jsstring :=
  match p with
  | P_constructor => lit "constructor"
  | P_toString => lit "toString"
  | P_toLocaleString => lit "toLocaleString"
  | P_valueOf => lit "valueOf"
  | P_hasOwnProperty => lit "hasOwnProperty"
  | P_isPrototypeOf => lit "isPrototypeOf"
  | P_propertyIsEnumerable => lit "propertyIsEnumerable"
  | P_defineGetter => lit "__defineGetter__"
  | P_defineSetter => lit "__defineSetter__"
  | P_lookupGetter => lit "__lookupGetter__"
  | P_lookupSetter => lit "__lookupSetter__"
  | P_proto => lit "__proto__"
  end.

Definition protoMembers : list ProtoMember :=
  [ P_constructor; P_toString; P_toLocaleString; P_valueOf;
    P_hasOwnProperty; P_isPrototypeOf; P_propertyIsEnumerable;
    P_defineGetter; P_defineSetter; P_lookupGetter; P_lookupSetter;
    P_proto ].

(** What a property read of [articleTemplates] gives. *)
Inductive Property : Type :=
| Own (template : jsstring -> jsstring -> jsstring)
| Inherited (p : ProtoMember).

(** The own properties of the [articleTemplates] literal. *)
Definition articleTemplates
  : list (jsstring * (jsstring -> jsstring -> jsstring)) :=
  [ (lit "Albert Einstein", einsteinTemplate);
    (lit "Oprah Winfrey", oprahTemplate);
    (lit "Elon Musk", muskTemplate);
    (lit "Default", defaultTemplate) ].

Fixpoint assoc {A : Type} (k : jsstring) (l : list (jsstring * A))
  : option A :=
  match l with
  | [] => None
  | (k', v) :: l' => if JsString.eqb k k' then Some v else assoc k l'
  end.

(** [articleTemplates[person]]: an own property, or else a member of the
    prototype; [None] is [undefined]. *)
Definition getTemplate (person : jsstring) : option Property :=
  match assoc person articleTemplates with
  | Some f => Some (Own f)
  | None =>
      match assoc person (map (fun p => (protoName p, p)) protoMembers) with
      | Some p => Some (Inherited p)
      | None => None
      end
  end.

(** What the call [template(title, summary)] gives. *)
Inductive Rendered : Type :=
| Text (s : jsstring)
| StringObject (s : jsstring)
| Boolean (b : bool)
| ThrowsTypeError.

(** The call of a member of [Object.prototype] as a plain function, on
    two strings: [this] is [undefined].  [toString] answers for
    [undefined]; [constructor] is [Object], which wraps its first
    argument; [isPrototypeOf] answers [false] for an argument that is
    not an object; [__proto__] is not a function; the others fail to
    convert [this] to an object. *)
Definition callInherited (p : ProtoMember) (title summary : jsstring)
  : Rendered :=
  match p with
  | P_toString => Text (lit "[object Undefined]")
  | P_constructor => StringObject title
  | P_isPrototypeOf => Boolean false
  | _ => ThrowsTypeError
  end.

(** [generateFullAIArticle(person, title, summary)]: every property read
    here is truthy, so [|| articleTemplates.Default] applies to
    [undefined] only. *)
Definition generateFullAIArticle (person title summary : jsstring)
  : Rendered :=
  match getTemplate person with
  | Some (Own template) => Text (template title summary)
  | Some (Inherited p) => callInherited p title summary
  | None => Text (defaultTemplate title summary)
  end.

(** The text on the screen contains [p]. *)
Definition renders (p : jsstring) (r : Rendered) : bool :=
  match r with
  | Text s => includes p s
  | StringObject s => includes p s
  | Boolean _ => false
  | ThrowsTypeError => false
  end.

End Renderer.

Import Renderer.

(** ** The submitting screen ([handleSubmit]) *)

Inductive SubmitResult : Type :=
| Alerted
| ErrorSet (msg : jsstring)
| Pushed (person : jsstring) (aiResponse : option JValue).

(** [handleSubmit] for the text of the input field: the events of the
    call of [groqResponse], if there is one, and what the screen does. *)
Definition handleSubmit (configured : option jsstring) (personName : jsstring)
  (endpoint : nat -> FetchOutcome) : list Event * SubmitResult :=
  if negb (truthy (trim personName)) then ([], Alerted)
  else if keyMissing (groqApiKey configured) then
    ([], ErrorSet (lit "GROQ_API_KEY is not configured. Please check your .env file and restart the development server."))
  else
    let (ev, o) := groqResponse configured (lit "llama3-8b-8192") endpoint in
    match o with
    | Returned _ content => (ev, Pushed (trim personName) content)
    | Thrown e => (ev, ErrorSet (message e))
    | LoopExhausted => (ev, ErrorSet (message propertyTypeError))
    end.

(** ** Values in conditions and in template literals *)

(** The number a run of decimal digits stands for. *)
Definition digitsValue (ds : jsstring) : Z :=
  fold_left (fun acc c => (10 * acc + (Z.of_N c - 48))%Z) ds 0%Z.

(** Whether the literal of a JSON number stands for zero once it is
    rounded to a double: its digits are all zero, or it is at most
    half of the least positive double, which is 2 to the power -1074.
    The conversion is the runtime's; the functions below take the test
    as the parameter [numberIsZero], and this is the one the examples
    use. *)
Definition decimalIsZero (lexeme : jsstring) : bool :=
  let s1 := match expect 45 lexeme with
            | Some r => r
            | None => lexeme
            end in
  let (ip, r1) := digits s1 in
  let (fp, r2) := match expect 46 r1 with
                  | Some r => digits r
                  | None => ([], r1)
                  end in
  let ex := match r2 with
            | _ :: g :: r0 =>
                if (g =? 45)%N then (- digitsValue r0)%Z
                else if (g =? 43)%N then digitsValue r0
                else digitsValue (g :: r0)
            | _ => 0%Z
            end in
  let m := digitsValue (ip ++ fp) in
  let e := (ex - Z.of_nat (List.length fp))%Z in
  if (m =? 0)%Z then true
  else if (0 <=? e)%Z then false
  else (m * 2 ^ 1075 <=? 10 ^ (- e))%Z.

(** A decoded value in a condition. *)
Definition truthyValue (numberIsZero : jsstring -> bool) (v : JValue) : bool :=
  match v with
  | JNull => false
  | JBool b => b
  | JNumber lexeme => negb (numberIsZero lexeme)
  | JString s => truthy s
  | JArray _ => true
  | JObject _ => true
  end.

(** Whether the conversion of a decoded value to a string, as a
    template literal does it, returns: an object with a member named
    [toString] hides the inherited function by something that cannot be
    called, and the conversion throws; an array converts its elements. *)
Fixpoint stringifies (v : JValue) : bool :=
  match v with
  | JArray elems => forallb stringifies elems
  | JObject m =>
      match lookup (lit "toString") m with
      | Some _ => false
      | None => true
      end
  | _ => true
  end.

(** [x || y] where both may be [undefined]. *)
Definition orOpt (x y : option jsstring) : option jsstring :=
  match x with
  | Some (c :: s) => Some (c :: s)
  | _ => y
  end.

(** ** The news screen: what it shows and what it passes on *)

(** [x || y] on a decoded value that may be [undefined]. *)
Definition orValue (numberIsZero : jsstring -> bool) (x : option JValue)
  (y : JValue) : JValue :=
  match x with
  | Some v => if truthyValue numberIsZero v then v else y
  | None => y
  end.

(** The object the callback of [aiArticles.map] returns: every field
    holds a value; [None] is a field the object does not have. *)
Record ArticleObject : Type := mkArticleObject {
  o_id : option JValue;
  o_title : option JValue;
  o_originalTitle : option JValue;
  o_summary : option JValue;
  o_originalSummary : option JValue;
  o_imageUrl : option JValue;
  o_publishedAt : option JValue;
  o_originalUrl : option JValue;
  o_source : option JValue;
  o_aiGenerated : option JValue;
  o_Generated_article : option JValue;
  o_Input_person_name : option JValue
}.

(** An article whose fields are strings, as an object. *)
Definition objectOf (a : NewsArticle) : ArticleObject :=
  {| o_id := option_map JString (id a);
     o_title := option_map JString (title a);
     o_originalTitle := option_map JString (originalTitle a);
     o_summary := option_map JString (summary a);
     o_originalSummary := option_map JString (originalSummary a);
     o_imageUrl := option_map JString (imageUrl a);
     o_publishedAt := option_map JString (publishedAt a);
     o_originalUrl := option_map JString (originalUrl a);
     o_source := option_map JString (source a);
     o_aiGenerated := option_map JBool (aiGenerated a);
     o_Generated_article := option_map JString (Generated_article a);
     o_Input_person_name := option_map JString (Input_person_name a) |}.

(** The callback of [aiArticles.map] on a decoded value, whatever it
    is; [None] when it throws: on [null], whose fields cannot be read,
    and on a generated article that is truthy and not a string, which
    has no [split]. *)
Definition mapAiRecord (numberIsZero : jsstring -> bool)
  (selectedPerson : jsstring) (article : JValue) (idx : nat)
  : option ArticleObject :=
  match getMember (lit "Generated article") (Some article),
        getMember (lit "Timestamp") (Some article),
        getMember (lit "Source URL") (Some article) with
  | inr g, inr t, inr u =>
      match orValue numberIsZero g (JString []) with
      | JString generatedContent =>
          let title := deriveTitle generatedContent in
          let summary := deriveSummary generatedContent in
          Some
            {| o_id := Some (JString (ofNat (idx + 1)));
               o_title :=
                 Some (JString
                   (orStr title
                      (selectedPerson
                       ++ lit "'s Perspective on Current Events")));
               o_originalTitle := Some (JString []);
               o_summary :=
                 Some (JString
                   (orStr summary
                      (substring0 200 generatedContent ++ ELLIPSIS)));
               o_originalSummary := Some (JString []);
               o_imageUrl := option_map JString (getRandomNewsImage idx);
               o_publishedAt :=
                 Some (orValue numberIsZero t (JString (lit "Today")));
               o_originalUrl := Some (orValue numberIsZero u (JString []));
               o_source := Some (JString (lit "BBC News"));
               o_aiGenerated := Some (JBool true);
               o_Generated_article := Some (JString generatedContent);
               o_Input_person_name := Some (JString selectedPerson) |}
      | _ => None
      end
  | _, _, _ => None
  end.

(** [a.map(f)] for a callback that may throw: the array of the results,
    or [None] as soon as one call throws. *)
Fixpoint mapRecords (f : JValue -> nat -> option ArticleObject) (i : nat)
  (l : list JValue) : option (list ArticleObject) :=
  match l with
  | [] => Some []
  | v :: l' =>
      match f v i with
      | None => None
      | Some a =>
          match mapRecords f (S i) l' with
          | None => None
          | Some r => Some (a :: r)
          end
      end
  end.

(** How the effect of the news screen ends. *)
Inductive EffectResult : Type :=
| EffectSkipped
| EffectThrows
| SetArticles (mapped : list ArticleObject).

(** The effect of the news screen for [params.aiResponse] and the
    person selected: skipped without a response, and otherwise the
    records are parsed and mapped, and [setArticles] receives the
    result unless the mapping throws, which it does outside the [try].
    The person is the state a run of the effect reads; the first
    statement, which stores [params.person] for the next run, is not
    part of the result. *)
Definition aiResponseEffect (numberIsZero : jsstring -> bool)
  (aiResponse : option jsstring) (selectedPerson : jsstring) : EffectResult :=
  match parseAiResponse aiResponse with
  | None => EffectSkipped
  | Some aiArticles =>
      match mapRecords (mapAiRecord numberIsZero selectedPerson) 0
              aiArticles with
      | Some mapped => SetArticles mapped
      | None => EffectThrows
      end
  end.

(** The condition of the empty state of the news screen, for
    [params.aiResponse], [selectedPerson] and [articles]. *)
Definition showsEmptyState (aiResponse : option jsstring)
  (selectedPerson : jsstring) (articles : list ArticleObject) : bool :=
  let hasResponse := truthy (orElse aiResponse []) in
  (hasResponse
   && (negb (truthy selectedPerson) || (List.length articles =? 0)))
  || (negb hasResponse && (List.length articles =? 0)).

(** The title on the card of an article:
    [article.title || article.originalTitle]. *)
Definition cardTitle (article : NewsArticle) : option jsstring :=
  orOpt (title article) (originalTitle article).

(** The parameters of the route to the article screen. *)
Record RouteParams : Type := mkRouteParams {
  p_articleId : option jsstring;
  p_title : option jsstring;
  p_originalTitle : option jsstring;
  p_summary : option jsstring;
  p_originalSummary : option jsstring;
  p_imageUrl : option jsstring;
  p_originalUrl : option jsstring;
  p_person : option jsstring;
  p_source : option jsstring;
  p_publishedAt : option jsstring
}.

(** [handleArticlePress]: the parameters pushed for an article. *)
Definition handleArticlePress (selectedPerson : jsstring)
  (article : NewsArticle) : RouteParams :=
  {| p_articleId := id article;
     p_title := title article;
     p_originalTitle := originalTitle article;
     p_summary := orOpt (Generated_article article) (summary article);
     p_originalSummary := originalSummary article;
     p_imageUrl := imageUrl article;
     p_originalUrl := originalUrl article;
     p_person := orOpt (Some selectedPerson) (Input_person_name article);
     p_source := source article;
     p_publishedAt := publishedAt article |}.

(** ** The article screen *)

(** The text the article screen looks for: the name of the field in
    double quotes. *)
Definition quotedField : jsstring :=
  [QUOTE] ++ lit "Generated article" ++ [QUOTE].

(** The read [v["Generated article"]] followed by [|| content]: [None]
    when the read throws. *)
Definition generatedOr (numberIsZero : jsstring -> bool) (v : JValue)
  (content : JValue) : option JValue :=
  match getMember (lit "Generated article") (Some v) with
  | inl _ => None
  | inr (Some g) => Some (if truthyValue numberIsZero g then g else content)
  | inr None => Some content
  end.

(** [parseAIContent(content)]; the content is [undefined] when the
    route has no summary.  Whatever is thrown inside the [try] block is
    dropped, and the content is returned as it is. *)
Definition parseAIContent (numberIsZero : jsstring -> bool)
  (content : option jsstring) : JValue :=
  match content with
  | None => JString []
  | Some [] => JString []
  | Some text =>
      if includes quotedField text then
        match JSON_parse text with
        | None => JString text
        | Some parsed =>
            match parsed with
            | JArray (first :: _) =>
                match generatedOr numberIsZero first (JString text) with
                | Some v => v
                | None => JString text
                end
            | _ =>
                match getMember (lit "Generated article") (Some parsed) with
                | inr (Some g) =>
                    if truthyValue numberIsZero g then g else JString text
                | _ => JString text
                end
            end
        end
      else JString text
  end.

(** [title || originalTitle || 'Untitled Article'] *)
Definition displayTitle (params : RouteParams) : jsstring :=
  orElse (orOpt (p_title params) (p_originalTitle params))
         (lit "Untitled Article").

(** The body of the generated section of the article screen, when the
    person is a string and the content too, as the casts of the source
    take them to be. *)
Definition articleBody (numberIsZero : jsstring -> bool)
  (params : RouteParams) : option Rendered :=
  match p_person params, parseAIContent numberIsZero (p_summary params) with
  | Some person, JString content =>
      Some (generateFullAIArticle person (displayTitle params) content)
  | _, _ => None
  end.

(** ** The vendor's news ([fetchNewsArticles]) *)

(** The URL of the request.  [limit] is a number; [Number] stands for
    the numbers of the runtime and [numberText] for the text a template
    literal writes for one, which is the runtime's to choose. *)
Definition newsUrl {Number : Type} (numberText : Number -> jsstring)
  (topic section : jsstring) (limit : Number)
  (country_code lang : jsstring) : jsstring :=
  lit "https://real-time-news-data.p.rapidapi.com/topic-news-by-section?topic="
  ++ topic ++ lit "&section=" ++ section ++ lit "&limit=" ++ numberText limit
  ++ lit "&country=" ++ country_code ++ lit "&lang=" ++ lang.

(** [fetchNewsArticles]: [net] is what [fetch] does for a URL.  The
    status of the response is not looked at; the body is decoded,
    converted to a string for the log, and its [data] is returned when
    it is truthy.  Whatever is thrown gives the empty array. *)
Definition fetchNewsArticles {Number : Type} (numberText : Number -> jsstring)
  (numberIsZero : jsstring -> bool)
  (net : jsstring -> FetchOutcome) (topic section : jsstring) (limit : Number)
  (country_code lang : jsstring) : JValue :=
  match net (newsUrl numberText topic section limit country_code lang) with
  | Rejects _ => JArray []
  | Resolves response =>
      match json response with
      | inl _ => JArray []
      | inr result =>
          if stringifies result then
            match getMember (lit "data") (Some result) with
            | inr (Some data) =>
                if truthyValue numberIsZero data then data else JArray []
            | inr None => JArray []
            | inl _ => JArray []
            end
          else JArray []
      end
  end.

Definition newsSection : jsstring :=
  lit "CAQiSkNCQVNNUW9JTDIwdk1EZGpNWFlTQldWdUxVZENHZ0pKVENJT0NBUWFDZ29JTDIwdk1ETnliSFFxQ2hJSUwyMHZNRE55YkhRb0FBKi4IACoqCAoiJENCQVNGUW9JTDIwdk1EZGpNWFlTQldWdUxVZENHZ0pKVENnQVABUAE".

(** The integers below 2 to the power 53 in absolute value: each is a
    number exactly, and every runtime writes it as its decimal numeral,
    with a minus sign when it is negative. *)
Record SafeInteger : Type := mkSafeInteger {
  integer : Z;
  integer_safe : (Z.abs integer <? 2 ^ 53)%Z = true
}.

Definition safeIntegerText (n : SafeInteger) : jsstring := ofZ (integer n).

(** The limit the news screen asks for. *)
Definition newsLimit : SafeInteger := @mkSafeInteger 10%Z eq_refl.

(** ** The home screen: the error banner *)

(** [error.includes('temporarily unavailable')]: the banner is the one
    of an unavailable service when it holds, and the one that asks for
    the configuration otherwise. *)
Definition unavailableBanner (error : jsstring) : bool :=
  includes (lit "temporarily unavailable") error.

(** ** The podcasts screen ([generateAIDescription]) *)

Definition defaultDescription (topic : jsstring) : jsstring :=
  lit "This episode explores " ++ topic
  ++ lit " through a unique lens, offering fresh perspectives on how these developments shape our world and future.".

Definition descriptions (topic : jsstring) : list (jsstring * jsstring) :=
  [ (lit "Albert Einstein",
     lit "In this thought-provoking discussion about " ++ topic
     ++ lit ", I explore the fundamental principles that govern our understanding of the universe and how curiosity drives scientific discovery.");
    (lit "Oprah Winfrey",
     lit "Join me as we dive deep into " ++ topic
     ++ lit ", exploring the human stories and emotional connections that make these developments meaningful to all of us.");
    (lit "Elon Musk",
     lit "Let's break down " ++ topic
     ++ lit " from first principles and discuss how we can leverage these insights to solve humanity's greatest challenges and reach for the stars.");
    (lit "Default", defaultDescription topic) ].

(** What [generateAIDescription] returns: a string of the table, or a
    member of [Object.prototype], none of which is falsy. *)
Inductive Description : Type :=
| DescriptionText (s : jsstring)
| DescriptionInherited (p : ProtoMember).

(** [descriptions[person] || descriptions.Default]: the strings of the
    table are not empty, so the default is taken for [undefined] only. *)
Definition generateAIDescription (person topic : jsstring) : Description :=
  match assoc person (descriptions topic) with
  | Some s => DescriptionText s
  | None =>
      match assoc person (map (fun p => (protoName p, p)) protoMembers) with
      | Some p => DescriptionInherited p
      | None => DescriptionText (defaultDescription topic)
      end
  end.

(** ** The specification's vocabulary *)

(** The text of [s] before the first occurrence of [sep]: all of [s]
    when [sep] does not occur in it. *)
Fixpoint textBefore (sep s : jsstring) : jsstring :=
  match s with
  | [] => []
  | c :: s' => if startsWith sep s then [] else c :: textBefore sep s'
  end.

(** [p] occurs in [s]. *)
Definition occursIn (p s : jsstring) : Prop :=
  exists before after, s = before ++ p ++ after.

(** A Markdown code-fence marker. *)
Definition FENCE : jsstring := lit "```".

(** The endpoint answers the attempt with status 503. *)
Definition unavailable (o : FetchOutcome) (r : Response) : Prop :=
  o = Resolves r /\ status r = 503%Z.

(** The endpoint answers the attempt with a success that carries
    [content]. *)
Definition succeeds (o : FetchOutcome) (content : option JValue) : Prop :=
  exists r data,
    o = Resolves r /\ ok r = true /\ json r = inr data /\
    contentOf data = inr content.

(** A decoded record on which the callback of the mapping throws. *)
Definition unmappable (numberIsZero : jsstring -> bool) (v : JValue) : Prop :=
  v = JNull \/
  exists g, field (lit "Generated article") v = Some g /\
            truthyValue numberIsZero g = true /\
            forall s, g <> JString s.

(** The errors the [catch] block of the client retries while attempts
    remain. *)
Definition retryable (e : JsError) : bool :=
  isTypeError e || includes (lit "fetch") (message e).

(** The events of a call of the client that ends on attempt 1, 2 or 3. *)
Definition eventsUpTo (n : nat) : list Event :=
  match n with
  | 1 => [Fetch 1]
  | 2 => [Fetch 1; Wait 2000; Fetch 2]
  | _ => [Fetch 1; Wait 2000; Fetch 2; Wait 4000; Fetch 3]
  end.

(** A value parser that consumes at least one code unit of its input. *)
Definition consumes (pv : jsstring -> result JValue) : Prop :=
  forall s v r, pv s = Parsed v r -> List.length r < List.length s.

(** A value parser that does not run out of fuel on inputs shorter
    than [f]. *)
Definition fuelled (f : nat) (pv : jsstring -> result JValue) : Prop :=
  forall s, List.length s < f -> pv s <> OutOfFuel.

(** [pv'] gives what [pv] gives wherever [pv] has fuel enough. *)
Definition extends (pv pv' : jsstring -> result JValue) : Prop :=
  forall s, pv s <> OutOfFuel -> pv' s = pv s.

(** The number of backticks [s] starts with. *)
Fixpoint lead (s : jsstring) : nat :=
  match s with
  | [] => 0
  | c :: s' => if N.eqb c BACKTICK then S (lead s') else 0
  end.

(** ** Inputs of the examples *)

(** A raw response with a typed fence, and two backticks and one more
    with a control character between them. *)
Definition fencedWithControl : jsstring :=
  lit "```json" ++ [LF] ++ lit "[]``" ++ [1%N] ++ lit "`".

(** A decoded completion that carries the text [hi]. *)
Definition completionHi : JValue :=
  JObject [(lit "choices",
            JArray [JObject [(lit "message",
                              JObject [(lit "content", JString (lit "hi"))])]])].

Definition busy : FetchOutcome :=
  Resolves (mkResponse 503 (lit "busy") (inr JNull)).

(** 503 on attempts 1 and 2, then a success. *)
Definition recovers (attempt : nat) : FetchOutcome :=
  if attempt <? 3 then busy
  else Resolves (mkResponse 200 [] (inr completionHi)).

(** An endpoint that answers every attempt with status 500 and a body
    that holds the word the [catch] block looks for. *)
Definition upstreamFailure : FetchOutcome :=
  Resolves (mkResponse 500 (lit "upstream fetch failed") (inr JNull)).

(** The network is down: every attempt fails in [fetch]. *)
Definition offline : FetchOutcome :=
  Rejects (mkJsError true (lit "Network request failed")).

(** The network is down on attempts 1 and 2. *)
Definition reconnects (attempt : nat) : FetchOutcome :=
  if attempt <? 3 then offline
  else Resolves (mkResponse 200 [] (inr completionHi)).

(** A request that was aborted: not a [TypeError], and no word of
    [fetch] in its message. *)
Definition aborted : FetchOutcome :=
  Rejects (mkJsError false (lit "Aborted")).

(** A success whose body is an empty object. *)
Definition emptyBody : FetchOutcome :=
  Resolves (mkResponse 200 (lit "{}") (inr (JObject []))).

(** A status 401 with a plain body. *)
Definition unauthorized : FetchOutcome :=
  Resolves (mkResponse 401 (lit "Invalid API Key") (inr JNull)).

(** A fenced array on one line, without any control character. *)
Definition fencedOneLine : jsstring := lit "```json[1]```".

(** A vendor record with a title and a thumbnail. *)
Definition headline : ApiArticle :=
  mkApiArticle (Some (lit "Chip sales rise")) None
               (Some (lit "https://example.org/chip.jpg")) None None None.

(** A JSON text of one record in an array, as the model is asked to
    write it. *)
Definition oneRecordText : jsstring :=
  lit "[{" ++ [QUOTE] ++ lit "Generated article" ++ [QUOTE] ++ lit ": "
  ++ [QUOTE] ++ lit "Full text." ++ [QUOTE] ++ lit "}]".

(** A failing status of the vendor with a body that holds [data]. *)
Definition failingWithData : FetchOutcome :=
  Resolves (mkResponse 500 []
              (inr (JObject [(lit "data", JArray [JObject []])]))).

(** A generated record that carries the body [body] and nothing else. *)
Definition generated (body : jsstring) : NewsArticle :=
  mkNewsArticle None None None None None None None None None None
                (Some body) None None None.

(** A body that starts with a blank line. *)
Definition blankLineFirst : jsstring := [LF; LF] ++ lit "Hello".

(** A vendor record without any of the fields. *)
Definition untitled : ApiArticle :=
  mkApiArticle None None None None None None.

(** A string literal of a JSON text. *)
Definition quoted (s : string) : jsstring := [QUOTE] ++ lit s ++ [QUOTE].

(** * Properties *)

(** ** Strings *)

Lemma startsWith_true_iff (p s : jsstring) :
  startsWith p s = true <-> exists r, s = p ++ r.
Proof.
  revert s; induction p as [|c p IH]; intros s; simpl.
  - split; [exists s; reflexivity | reflexivity].
  - destruct s as [|d s]; simpl.
    + split; [discriminate | intros [r Hr]; discriminate].
    + rewrite andb_true_iff, N.eqb_eq, IH. split.
      * intros [-> [r ->]]. exists r. reflexivity.
      * intros [r Hr]. injection Hr as -> ->. split; [reflexivity | exists r; reflexivity].
Qed.

Lemma includes_true_iff (p s : jsstring) :
  includes p s = true <-> occursIn p s.
Proof.
  unfold occursIn. induction s as [|c s IH].
  - simpl. rewrite orb_false_r, startsWith_true_iff. split.
    + intros [r Hr]. exists [], r. exact Hr.
    + intros [b [a H]]. destruct b; [exists a; exact H | discriminate].
  - cbn [includes]. rewrite orb_true_iff, startsWith_true_iff, IH. split.
    + intros [[r Hr] | [b [a H]]].
      * exists [], r. exact Hr.
      * exists (c :: b), a. simpl. rewrite H. reflexivity.
    + intros [b [a H]]. destruct b as [|d b].
      * left. exists a. exact H.
      * right. injection H as -> ->. exists b, a. reflexivity.
Qed.

Lemma eqb_true_iff (s t : jsstring) : JsString.eqb s t = true <-> s = t.
Proof.
  revert t; induction s as [|c s IH]; intros [|d t]; simpl;
    try (split; [discriminate | discriminate]); try tauto.
  rewrite andb_true_iff, N.eqb_eq, IH. split.
  - intros [-> ->]. reflexivity.
  - intros H. injection H as -> ->. tauto.
Qed.

Lemma split_go_head (sep cur s : jsstring) :
  at0 (split_go sep 0 cur s) = rev cur ++ textBefore sep s.
Proof.
  revert cur; induction s as [|c s IH]; intros cur.
  - simpl. rewrite app_nil_r. reflexivity.
  - cbn [split_go textBefore]. destruct (startsWith sep (c :: s)).
    + simpl. rewrite app_nil_r. reflexivity.
    + rewrite IH. simpl. rewrite <- app_assoc. reflexivity.
Qed.

(** [s.split(sep)[0]] is the text before the first [sep]. *)
Lemma split_at0 (sep s : jsstring) :
  sep <> [] -> at0 (split sep s) = textBefore sep s.
Proof.
  intros Hsep. destruct sep as [|d sep]; [contradiction|].
  unfold split. rewrite split_go_head. reflexivity.
Qed.

Lemma split_go_nonempty (sep : jsstring) (skip : nat) (cur s : jsstring) :
  split_go sep skip cur s <> [].
Proof.
  revert skip cur; induction s as [|c s IH]; intros skip cur; simpl.
  - discriminate.
  - destruct skip; [destruct (startsWith sep (c :: s))|]; try apply IH.
    discriminate.
Qed.

(** [split] on a separator that is not empty gives at least one piece,
    so the read of its first element is defined. *)
Lemma split_nonempty (sep s : jsstring) : sep <> [] -> split sep s <> [].
Proof.
  destruct sep as [|d sep]; [contradiction|]. intros _.
  apply split_go_nonempty.
Qed.

(** [textBefore] is what its name says: [s] itself when [sep] does not
    occur, and otherwise the prefix of [s] that [sep] follows and in
    which no occurrence of [sep] starts. *)
Lemma textBefore_spec (sep s : jsstring) :
  sep <> [] ->
  (includes sep s = false /\ textBefore sep s = s) \/
  (exists rest, s = textBefore sep s ++ sep ++ rest /\
     forall k, k < List.length (textBefore sep s) ->
               startsWith sep (skipn k s) = false).
Proof.
  intros Hsep. induction s as [|c s IH].
  - left. destruct sep; [contradiction | split; reflexivity].
  - cbn [textBefore includes]. destruct (startsWith sep (c :: s)) eqn:E.
    + right. apply startsWith_true_iff in E as [r Hr].
      exists r. split; [exact Hr | simpl; lia].
    + destruct IH as [[Hn Ht] | [rest [Hs Hk]]].
      * left. rewrite Hn, Ht. split; reflexivity.
      * right. exists rest. split.
        -- simpl. rewrite <- Hs. reflexivity.
        -- intros [|k] Hlt; [exact E|]. simpl in Hlt |- *. apply Hk. lia.
Qed.

(** ** The decoder

    [parse_value] never runs out of fuel on the fuel [JSON_parse] gives
    it, so [None] is a syntax error of the text and nothing else. *)

Lemma skip_ws_length (s : jsstring) :
  List.length (skip_ws s) <= List.length s.
Proof.
  induction s as [|c s IH]; simpl; [lia|].
  destruct (isJsonSpace c); simpl; lia.
Qed.

Lemma expect_length (c : N) (s r : jsstring) :
  expect c s = Some r -> List.length s = S (List.length r).
Proof.
  destruct s as [|d s]; simpl; [discriminate|].
  destruct (N.eqb c d); [|discriminate].
  intros H; injection H as ->. reflexivity.
Qed.

Lemma parse_chars_length (s acc k r : jsstring) :
  parse_chars s acc = Some (k, r) -> List.length r < List.length s.
Proof.
  remember (List.length s) as n eqn:Hn.
  assert (Hle : List.length s <= n) by lia. clear Hn.
  revert s acc Hle. induction n as [|n IH]; intros s acc Hle.
  - destruct s; [simpl; discriminate | simpl in Hle; lia].
  - destruct s as [|c s]; [simpl; discriminate|].
    simpl in Hle. cbn [parse_chars].
    destruct (c =? 34)%N.
    { intros H; injection H as _ ->. simpl. lia. }
    destruct (c =? 92)%N.
    { destruct s as [|e s1]; [discriminate|].
      destruct (e =? 117)%N.
      - destruct s1 as [|h1 [|h2 [|h3 [|h4 r2]]]]; try discriminate.
        destruct (hex4 h1 h2 h3 h4); [|discriminate].
        intros H. apply IH in H; simpl in *; lia.
      - destruct (unescape e); [|discriminate].
        intros H. apply IH in H; simpl in *; lia. }
    destruct (c <? 32)%N; [discriminate|].
    intros H. apply IH in H; simpl in *; lia.
Qed.

Lemma digits_length (s ds r : jsstring) :
  digits s = (ds, r) -> List.length s = List.length ds + List.length r.
Proof.
  revert ds r; induction s as [|c s IH]; intros ds r; simpl.
  - intros H; injection H as <- <-. reflexivity.
  - destruct (isDigit c).
    + destruct (digits s) as [ds' r'] eqn:E.
      intros H; injection H as <- <-. simpl. rewrite (IH _ _ eq_refl). reflexivity.
    + intros H; injection H as <- <-. reflexivity.
Qed.

Lemma parse_int_length (s i r : jsstring) :
  parse_int s = Some (i, r) -> List.length r < List.length s.
Proof.
  unfold parse_int.
  destruct (expect 45 s) as [s1|] eqn:E.
  - apply expect_length in E. destruct s1 as [|c s1]; [discriminate|].
    destruct (c =? 48)%N.
    + intros H; injection H as _ <-. simpl in *. lia.
    + destruct (isDigit c); [|discriminate].
      destruct (digits s1) as [ds r'] eqn:D. apply digits_length in D.
      intros H; injection H as _ <-. simpl in *. lia.
  - destruct s as [|c s1]; [discriminate|].
    destruct (c =? 48)%N.
    + intros H; injection H as _ <-. simpl. lia.
    + destruct (isDigit c); [|discriminate].
      destruct (digits s1) as [ds r'] eqn:D. apply digits_length in D.
      intros H; injection H as _ <-. simpl. lia.
Qed.

Lemma parse_frac_length (s f r : jsstring) :
  parse_frac s = Some (f, r) -> List.length r <= List.length s.
Proof.
  unfold parse_frac. destruct (expect 46 s) as [s1|] eqn:E.
  - apply expect_length in E.
    destruct (digits s1) as [ds r'] eqn:D. apply digits_length in D.
    destruct ds; [discriminate|].
    intros H; injection H as _ <-. lia.
  - intros H; injection H as _ <-. lia.
Qed.

Lemma parse_exp_length (s e r : jsstring) :
  parse_exp s = Some (e, r) -> List.length r <= List.length s.
Proof.
  unfold parse_exp. destruct s as [|c s1].
  - intros H; injection H as _ <-. lia.
  - destruct ((c =? 101) || (c =? 69))%N.
    + destruct s1 as [|g r0].
      * simpl. discriminate.
      * destruct ((g =? 43) || (g =? 45))%N.
        -- destruct (digits r0) as [ds r'] eqn:D. apply digits_length in D.
           destruct ds; [discriminate|].
           intros H; injection H as _ <-. simpl. lia.
        -- destruct (digits (g :: r0)) as [ds r'] eqn:D.
           apply digits_length in D.
           destruct ds; [discriminate|].
           intros H; injection H as _ <-. simpl in *. lia.
    + intros H; injection H as _ <-. lia.
Qed.

Lemma parse_number_length (s l r : jsstring) :
  parse_number s = Some (l, r) -> List.length r < List.length s.
Proof.
  unfold parse_number.
  destruct (parse_int s) as [[i r1]|] eqn:I; [|discriminate].
  destruct (parse_frac r1) as [[f r2]|] eqn:F; [|discriminate].
  destruct (parse_exp r2) as [[e r3]|] eqn:X; [|discriminate].
  apply parse_int_length in I. apply parse_frac_length in F.
  apply parse_exp_length in X.
  intros H; injection H as _ <-. lia.
Qed.

Lemma keyword_length (w : string) (v v' : JValue) (s r : jsstring) :
  lit w <> [] ->
  keyword w v s = Parsed v' r -> List.length r < List.length s.
Proof.
  unfold keyword. intros Hw. destruct (startsWith (lit w) s) eqn:E; [|discriminate].
  apply startsWith_true_iff in E as [t ->].
  intros H; injection H as _ <-.
  rewrite skipn_app, skipn_all, Nat.sub_diag. simpl.
  rewrite length_app. destruct (lit w); [contradiction | simpl; lia].
Qed.

Section Loops.

Variable pv : jsstring -> result JValue.
Hypothesis pv_consumes : consumes pv.

Lemma elements_length (n : nat) (s : jsstring) (acc l : list JValue)
  (r : jsstring) :
  elements pv n s acc = Parsed l r -> List.length r < List.length s.
Proof.
  revert s acc; induction n as [|n IH]; intros s acc; simpl; [discriminate|].
  destruct (pv s) as [v r0| |] eqn:E; try discriminate.
  apply pv_consumes in E. pose proof (skip_ws_length r0) as Hw.
  destruct (skip_ws r0) as [|c r']; [discriminate|]. simpl in Hw.
  destruct (c =? 44)%N.
  - intros H. apply IH in H. lia.
  - destruct (c =? 93)%N; [|discriminate].
    intros H; injection H as _ <-. lia.
Qed.

Lemma members_length (n : nat) (s : jsstring)
  (acc l : list (jsstring * JValue)) (r : jsstring) :
  members pv n s acc = Parsed l r -> List.length r < List.length s.
Proof.
  revert s acc; induction n as [|n IH]; intros s acc; simpl; [discriminate|].
  pose proof (skip_ws_length s) as Hs.
  destruct (expect 34 (skip_ws s)) as [r0|] eqn:E0; [|discriminate].
  apply expect_length in E0.
  destruct (parse_chars r0 []) as [[k r1]|] eqn:E1; [|discriminate].
  apply parse_chars_length in E1. pose proof (skip_ws_length r1) as H1.
  destruct (expect 58 (skip_ws r1)) as [r2|] eqn:E2; [|discriminate].
  apply expect_length in E2.
  destruct (pv r2) as [v r3| |] eqn:E3; try discriminate.
  apply pv_consumes in E3. pose proof (skip_ws_length r3) as H3.
  destruct (skip_ws r3) as [|c r4]; [discriminate|]. simpl in H3.
  destruct (c =? 44)%N.
  - intros H. apply IH in H. lia.
  - destruct (c =? 125)%N; [|discriminate].
    intros H; injection H as _ <-. lia.
Qed.

Variable f : nat.
Hypothesis pv_fuelled : fuelled f pv.

Lemma elements_fuel (n : nat) (s : jsstring) (acc : list JValue) :
  List.length s < n -> List.length s < f ->
  elements pv n s acc <> OutOfFuel.
Proof.
  revert s acc; induction n as [|n IH]; intros s acc Hn Hf; [lia|].
  simpl. destruct (pv s) as [v r0| |] eqn:E; try discriminate.
  - apply pv_consumes in E. pose proof (skip_ws_length r0) as Hw.
    destruct (skip_ws r0) as [|c r']; [discriminate|]. simpl in Hw.
    destruct (c =? 44)%N; [apply IH; lia|].
    destruct (c =? 93)%N; discriminate.
  - exfalso. exact (pv_fuelled Hf E).
Qed.

Lemma members_fuel (n : nat) (s : jsstring)
  (acc : list (jsstring * JValue)) :
  List.length s < n -> List.length s < f ->
  members pv n s acc <> OutOfFuel.
Proof.
  revert s acc; induction n as [|n IH]; intros s acc Hn Hf; [lia|].
  simpl. pose proof (skip_ws_length s) as Hs.
  destruct (expect 34 (skip_ws s)) as [r0|] eqn:E0; [|discriminate].
  apply expect_length in E0.
  destruct (parse_chars r0 []) as [[k r1]|] eqn:E1; [|discriminate].
  apply parse_chars_length in E1. pose proof (skip_ws_length r1) as H1.
  destruct (expect 58 (skip_ws r1)) as [r2|] eqn:E2; [|discriminate].
  apply expect_length in E2.
  destruct (pv r2) as [v r3| |] eqn:E3; try discriminate.
  - apply pv_consumes in E3. pose proof (skip_ws_length r3) as H3.
    destruct (skip_ws r3) as [|c r4]; [discriminate|]. simpl in H3.
    destruct (c =? 44)%N; [apply IH; lia|].
    destruct (c =? 125)%N; discriminate.
  - exfalso. apply (@pv_fuelled r2); [lia | exact E3].
Qed.

End Loops.

Lemma parse_value_consumes (fuel : nat) : consumes (parse_value fuel).
Proof.
  induction fuel as [|f IH]; intros s v r; simpl; [discriminate|].
  pose proof (skip_ws_length s) as Hs.
  destruct (skip_ws s) as [|c r0]; [discriminate|]. simpl in Hs.
  destruct (c =? 123)%N.
  { destruct (expect 125 (skip_ws r0)) as [r'|] eqn:E.
    - apply expect_length in E. pose proof (skip_ws_length r0) as Hr.
      intros H; injection H as _ <-. lia.
    - destruct (members (parse_value f) f r0 []) as [m r'| |] eqn:M;
        try discriminate.
      apply (members_length IH) in M.
      intros H; injection H as _ <-. lia. }
  destruct (c =? 91)%N.
  { destruct (expect 93 (skip_ws r0)) as [r'|] eqn:E.
    - apply expect_length in E. pose proof (skip_ws_length r0) as Hr.
      intros H; injection H as _ <-. lia.
    - destruct (elements (parse_value f) f r0 []) as [l r'| |] eqn:M;
        try discriminate.
      apply (elements_length IH) in M.
      intros H; injection H as _ <-. lia. }
  destruct (c =? 34)%N.
  { destruct (parse_chars r0 []) as [[str r']|] eqn:E; [|discriminate].
    apply parse_chars_length in E.
    intros H; injection H as _ <-. lia. }
  destruct (c =? 116)%N.
  { intros H. apply keyword_length in H; [simpl in H; lia | discriminate]. }
  destruct (c =? 102)%N.
  { intros H. apply keyword_length in H; [simpl in H; lia | discriminate]. }
  destruct (c =? 110)%N.
  { intros H. apply keyword_length in H; [simpl in H; lia | discriminate]. }
  destruct (parse_number (c :: r0)) as [[lexeme r']|] eqn:E; [|discriminate].
  apply parse_number_length in E.
  intros H; injection H as _ <-. simpl in E. lia.
Qed.

Lemma parse_value_fuelled (fuel : nat) : fuelled fuel (parse_value fuel).
Proof.
  induction fuel as [|f IH]; intros s Hlt; [lia|]. simpl.
  pose proof (skip_ws_length s) as Hs.
  destruct (skip_ws s) as [|c r0]; [discriminate|]. simpl in Hs.
  destruct (c =? 123)%N.
  { destruct (expect 125 (skip_ws r0)); [discriminate|].
    destruct (members (parse_value f) f r0 []) as [m r'| |] eqn:M;
      try discriminate.
    exfalso. revert M.
    apply (members_fuel (parse_value_consumes f) IH); lia. }
  destruct (c =? 91)%N.
  { destruct (expect 93 (skip_ws r0)); [discriminate|].
    destruct (elements (parse_value f) f r0 []) as [l r'| |] eqn:M;
      try discriminate.
    exfalso. revert M.
    apply (elements_fuel (parse_value_consumes f) IH); lia. }
  destruct (c =? 34)%N.
  { destruct (parse_chars r0 []) as [[str r']|]; discriminate. }
  unfold keyword.
  destruct (c =? 116)%N; [destruct (startsWith _ _); discriminate|].
  destruct (c =? 102)%N; [destruct (startsWith _ _); discriminate|].
  destruct (c =? 110)%N; [destruct (startsWith _ _); discriminate|].
  destruct (parse_number (c :: r0)) as [[lexeme r']|]; discriminate.
Qed.

(** [JSON_parse] gives its value parser enough fuel. *)
Lemma parse_value_fuel (s : jsstring) :
  parse_value (fuel_for s) s <> OutOfFuel.
Proof. apply parse_value_fuelled. unfold fuel_for. lia. Qed.

Section MoreFuel.

Variables pv pv' : jsstring -> result JValue.
Hypothesis pv_extends : extends pv pv'.

Lemma elements_more_fuel (n n' : nat) (s : jsstring) (acc : list JValue) :
  n <= n' -> elements pv n s acc <> OutOfFuel ->
  elements pv' n' s acc = elements pv n s acc.
Proof.
  revert n' s acc; induction n as [|n IH]; intros n' s acc Hle Hf.
  - exfalso. apply Hf. reflexivity.
  - destruct n' as [|n']; [lia|]. cbn [elements] in Hf |- *.
    destruct (pv s) as [v r| |] eqn:E.
    + rewrite pv_extends by (rewrite E; discriminate). rewrite E.
      destruct (skip_ws r) as [|c r']; [reflexivity|].
      destruct (c =? 44)%N; [apply IH; [lia | exact Hf] | reflexivity].
    + rewrite pv_extends by (rewrite E; discriminate). rewrite E.
      reflexivity.
    + exfalso. apply Hf. reflexivity.
Qed.

Lemma members_more_fuel (n n' : nat) (s : jsstring)
  (acc : list (jsstring * JValue)) :
  n <= n' -> members pv n s acc <> OutOfFuel ->
  members pv' n' s acc = members pv n s acc.
Proof.
  revert n' s acc; induction n as [|n IH]; intros n' s acc Hle Hf.
  - exfalso. apply Hf. reflexivity.
  - destruct n' as [|n']; [lia|]. cbn [members] in Hf |- *.
    destruct (expect 34 (skip_ws s)) as [r0|]; [|reflexivity].
    destruct (parse_chars r0 []) as [[k r1]|]; [|reflexivity].
    destruct (expect 58 (skip_ws r1)) as [r2|]; [|reflexivity].
    destruct (pv r2) as [v r3| |] eqn:E.
    + rewrite pv_extends by (rewrite E; discriminate). rewrite E.
      destruct (skip_ws r3) as [|c r4]; [reflexivity|].
      destruct (c =? 44)%N; [apply IH; [lia | exact Hf] | reflexivity].
    + rewrite pv_extends by (rewrite E; discriminate). rewrite E.
      reflexivity.
    + exfalso. apply Hf. reflexivity.
Qed.

End MoreFuel.

(** More fuel does not change what the value parser gives. *)
Lemma parse_value_more_fuel (f f' : nat) (s : jsstring) :
  f <= f' -> parse_value f s <> OutOfFuel ->
  parse_value f' s = parse_value f s.
Proof.
  revert f' s; induction f as [|f IH]; intros f' s Hle Hf.
  - exfalso. apply Hf. reflexivity.
  - destruct f' as [|f']; [lia|]. cbn [parse_value] in Hf |- *.
    assert (Hext : extends (parse_value f) (parse_value f')).
    { intros t Ht. apply IH; [lia | exact Ht]. }
    destruct (skip_ws s) as [|c r]; [reflexivity|].
    destruct (c =? 123)%N.
    { destruct (expect 125 (skip_ws r)); [reflexivity|].
      rewrite (@members_more_fuel _ _ Hext f f'); [reflexivity | lia |].
      intros H. apply Hf. rewrite H. reflexivity. }
    destruct (c =? 91)%N.
    { destruct (expect 93 (skip_ws r)); [reflexivity|].
      rewrite (@elements_more_fuel _ _ Hext f f'); [reflexivity | lia |].
      intros H. apply Hf. rewrite H. reflexivity. }
    reflexivity.
Qed.

(** [JSON_parse] does not depend on the fuel it gives, as long as it is
    at least [fuel_for s]. *)
Lemma parse_value_fuel_enough (s : jsstring) (f : nat) :
  fuel_for s <= f -> parse_value f s = parse_value (fuel_for s) s.
Proof.
  intros Hle. apply parse_value_more_fuel; [exact Hle | apply parse_value_fuel].
Qed.

(** When [JSON_parse] gives nothing, the text has a syntax error: no
    value at its head, or something other than white space after it. *)
Lemma JSON_parse_None (s : jsstring) :
  JSON_parse s = None ->
  parse_value (fuel_for s) s = SyntaxError \/
  exists v c r, parse_value (fuel_for s) s = Parsed v (c :: r) /\
                skip_ws (c :: r) <> [].
Proof.
  unfold JSON_parse. pose proof (parse_value_fuel s) as Hf.
  destruct (parse_value (fuel_for s) s) as [v r| |].
  - destruct (skip_ws r) as [|c r'] eqn:E; [discriminate|].
    intros _. right. destruct r as [|d r0]; [discriminate|].
    exists v, d, r0. split; [reflexivity | rewrite E; discriminate].
  - left. reflexivity.
  - contradiction.
Qed.

Lemma parse_value_bracket (fuel : nat) (r rest : jsstring) (v : JValue) :
  parse_value fuel (91%N :: r) = Parsed v rest -> exists elems, v = JArray elems.
Proof.
  destruct fuel as [|f]; [discriminate|].
  cbn [parse_value]. change (skip_ws (91%N :: r)) with (91%N :: r).
  change (91 =? 123)%N with false. change (91 =? 91)%N with true. cbv iota.
  destruct (expect 93 (skip_ws r)) as [r'|].
  - intros H; injection H as <- _. eexists; reflexivity.
  - destruct (elements _ _ r []) as [l r'| |]; try discriminate.
    intros H; injection H as <- _. eexists; reflexivity.
Qed.

Lemma parse_value_brace (fuel : nat) (r rest : jsstring) (v : JValue) :
  parse_value fuel (123%N :: r) = Parsed v rest -> exists m, v = JObject m.
Proof.
  destruct fuel as [|f]; [discriminate|].
  cbn [parse_value]. change (skip_ws (123%N :: r)) with (123%N :: r).
  change (123 =? 123)%N with true. cbv iota.
  destruct (expect 125 (skip_ws r)) as [r'|].
  - intros H; injection H as <- _. eexists; reflexivity.
  - destruct (members _ _ r []) as [l r'| |]; try discriminate.
    intros H; injection H as <- _. eexists; reflexivity.
Qed.

(** A text that starts with a bracket decodes to an array or not at
    all; one that starts with a brace, to an object or not at all. *)
Lemma JSON_parse_bracket (s : jsstring) (v : JValue) :
  startsWith (lit "[") s = true -> JSON_parse s = Some v ->
  exists elems, v = JArray elems.
Proof.
  intros Hs. apply startsWith_true_iff in Hs as [r ->].
  unfold JSON_parse.
  destruct (parse_value _ _) as [w rest| |] eqn:E; try discriminate.
  apply parse_value_bracket in E.
  destruct (skip_ws rest); [|discriminate].
  intros H; injection H as <-. exact E.
Qed.

Lemma JSON_parse_brace (s : jsstring) (v : JValue) :
  startsWith (lit "{") s = true -> JSON_parse s = Some v ->
  exists m, v = JObject m.
Proof.
  intros Hs. apply startsWith_true_iff in Hs as [r ->].
  unfold JSON_parse.
  destruct (parse_value _ _) as [w rest| |] eqn:E; try discriminate.
  apply parse_value_brace in E.
  destruct (skip_ws rest); [|discriminate].
  intros H; injection H as <-. exact E.
Qed.

(** ** The sanitizer *)

Lemma removeAll_go_skipn (m : jsstring -> nat) (k : nat) (s : jsstring) :
  removeAll_go m k s = removeAll m (skipn k s).
Proof.
  unfold removeAll. revert k; induction s as [|c s IH]; intros [|k]; try reflexivity.
  simpl. apply IH.
Qed.

Lemma removeAll_cons (m : jsstring -> nat) (c : N) (s : jsstring) :
  removeAll m (c :: s) =
  match m (c :: s) with
  | O => c :: removeAll m s
  | S k => removeAll m (skipn k s)
  end.
Proof.
  unfold removeAll at 1. cbn [removeAll_go].
  destruct (m (c :: s)); [reflexivity | apply removeAll_go_skipn].
Qed.

(** The sanitizer only deletes code units. *)
Lemma removeAll_Forall (P : N -> Prop) (m : jsstring -> nat) (s : jsstring) :
  Forall P s -> Forall P (removeAll m s).
Proof.
  unfold removeAll. generalize 0 as k. induction s as [|c s IH]; intros k H.
  - constructor.
  - inversion H as [|? ? Hc Hs]; subst. cbn [removeAll_go].
    destruct k; [destruct (m (c :: s))|]; auto.
Qed.

Lemma trimStart_Forall (P : N -> Prop) (s : jsstring) :
  Forall P s -> Forall P (trimStart s).
Proof.
  induction 1 as [|c s Hc Hs IH]; simpl; [constructor|].
  destruct (isWhiteSpace c); [exact IH | constructor; assumption].
Qed.

Lemma trim_Forall (P : N -> Prop) (s : jsstring) :
  Forall P s -> Forall P (trim s).
Proof.
  intros H. unfold trim, trimEnd.
  apply Forall_rev, trimStart_Forall, Forall_rev, trimStart_Forall, H.
Qed.

Lemma trimStart_suffix (s : jsstring) : exists w, s = w ++ trimStart s.
Proof.
  induction s as [|c s [w IH]]; simpl.
  - exists []. reflexivity.
  - destruct (isWhiteSpace c).
    + exists (c :: w). simpl. rewrite <- IH. reflexivity.
    + exists []. reflexivity.
Qed.

(** [trim] keeps a contiguous part of its argument. *)
Lemma trim_infix (s : jsstring) : exists w1 w2, s = w1 ++ trim s ++ w2.
Proof.
  unfold trim, trimEnd.
  destruct (trimStart_suffix s) as [w1 H1].
  destruct (trimStart_suffix (rev (trimStart s))) as [w2 H2].
  exists w1, (rev w2).
  rewrite <- rev_app_distr, <- H2, rev_involutive. exact H1.
Qed.

Lemma includes_trim (p s : jsstring) :
  includes p s = false -> includes p (trim s) = false.
Proof.
  intros H. destruct (includes p (trim s)) eqn:E; [|reflexivity].
  apply includes_true_iff in E as [b [a E]].
  destruct (trim_infix s) as [w1 [w2 Hs]].
  assert (Hin : includes p s = true).
  { apply includes_true_iff. exists (w1 ++ b), (a ++ w2).
    rewrite Hs, E. repeat rewrite <- app_assoc. reflexivity. }
  congruence.
Qed.

Lemma startsWith_FENCE_lead (s : jsstring) :
  startsWith FENCE s = true <-> 3 <= lead s.
Proof.
  change FENCE with [BACKTICK; BACKTICK; BACKTICK].
  destruct s as [|a [|b [|c s]]]; cbn [startsWith lead];
    rewrite ?(N.eqb_sym BACKTICK);
    repeat match goal with
           | |- context [N.eqb ?x BACKTICK] => destruct (N.eqb x BACKTICK)
           end; cbn [andb]; split; intros; try discriminate; try lia;
    reflexivity.
Qed.

Lemma fence_zero (s : jsstring) :
  fence s = 0 <-> startsWith FENCE s = false.
Proof.
  unfold fence. change (lit "```") with FENCE.
  destruct (startsWith FENCE s).
  - split; [|discriminate].
    destruct (skipn 3 s) as [|c ?]; [|destruct (N.eqb c LF)]; discriminate.
  - split; reflexivity.
Qed.

(** After the replacement of [/```\n?/g] the text holds no fence marker:
    what stands before a match never ends in a backtick, so the pieces
    that are kept cannot join into one. *)
Lemma removeAll_fence_invariant (n : nat) (s : jsstring) :
  List.length s <= n ->
  includes FENCE (removeAll fence s) = false /\
  lead (removeAll fence s) < 3 /\
  (lead s < 3 -> lead (removeAll fence s) <= lead s).
Proof.
  revert s; induction n as [|n IH]; intros s Hn.
  - destruct s; [|simpl in Hn; lia]. repeat split; simpl; lia.
  - destruct s as [|c s]; [repeat split; simpl; lia|].
    simpl in Hn. rewrite removeAll_cons.
    destruct (fence (c :: s)) as [|k] eqn:F.
    + apply fence_zero in F.
      assert (Hlt : lead (c :: s) < 3).
      { destruct (Nat.lt_ge_cases (lead (c :: s)) 3) as [H|H]; [exact H|].
        apply startsWith_FENCE_lead in H. congruence. }
      destruct (IH s ltac:(lia)) as [Hi [Hl Hle]].
      assert (Hout : lead (c :: removeAll fence s) <= lead (c :: s)).
      { simpl in Hlt |- *. destruct (N.eqb c BACKTICK); [|lia].
        specialize (Hle ltac:(lia)). lia. }
      repeat split; try lia.
      cbn [includes]. rewrite Hi, orb_false_r.
      destruct (startsWith FENCE (c :: removeAll fence s)) eqn:E; [|reflexivity].
      apply startsWith_FENCE_lead in E. lia.
    + assert (Hs : List.length (skipn k s) <= n).
      { rewrite length_skipn. lia. }
      destruct (IH _ Hs) as [Hi [Hl _]].
      repeat split; try assumption.
      intros Hlt. exfalso.
      assert (startsWith FENCE (c :: s) = false) as Hf.
      { destruct (startsWith FENCE (c :: s)) eqn:E; [|reflexivity].
        apply startsWith_FENCE_lead in E. lia. }
      apply fence_zero in Hf. congruence.
Qed.

(** The text between the fence replacements and the removal of the
    control characters holds no fence marker. *)
Lemma stripFences_no_fence (s : jsstring) :
  includes FENCE (stripFences s) = false.
Proof.
  unfold stripFences. apply includes_trim.
  apply (@removeAll_fence_invariant _ (removeAll fenceJson s) (le_n _)).
Qed.

(** The sanitized text holds no control character. *)
Lemma cleanAiText_no_control (raw : jsstring) :
  Forall (fun c => isControl c = false) (cleanAiText raw).
Proof.
  unfold cleanAiText, removeControl. apply Forall_forall.
  intros c Hc. apply filter_In in Hc as [_ Hc].
  apply negb_true_iff in Hc. exact Hc.
Qed.

Lemma removeControl_id (s : jsstring) :
  Forall (fun c => isControl c = false) s -> removeControl s = s.
Proof.
  unfold removeControl. induction 1 as [|c s Hc Hs IH]; simpl; [reflexivity|].
  rewrite Hc. simpl. rewrite IH. reflexivity.
Qed.

(** On a raw text without control characters the sanitized text holds
    no fence marker either. *)
Lemma cleanAiText_no_fence (raw : jsstring) :
  Forall (fun c => isControl c = false) raw ->
  includes FENCE (cleanAiText raw) = false.
Proof.
  intros H. unfold cleanAiText. rewrite removeControl_id.
  - apply stripFences_no_fence.
  - unfold stripFences.
    apply trim_Forall, removeAll_Forall, removeAll_Forall, trim_Forall, H.
Qed.

(** C6. The claim is that the sanitized text of a raw input with fence
    markers and control characters holds no control character and no
    fence marker.  The source strips the fences first and the control
    characters last, so backticks that a control character separates
    join into a marker: on the input above, which holds a fence marker
    and a control character, the sanitized text is the two brackets
    followed by three backticks. *)
Theorem C6_control_removal_joins_backticks :
  includes FENCE fencedWithControl = true /\
  existsb isControl fencedWithControl = true /\
  cleanAiText fencedWithControl = lit "[]```" /\
  includes FENCE (cleanAiText fencedWithControl) = true.
Proof. vm_compute. repeat split. Qed.

(** ** The retry client *)

Section Attempt.

Variable aiModel : jsstring.
Variable endpoint : nat -> FetchOutcome.
Variable attempt : nat.
Variable response : Response.
Hypothesis resolves : endpoint attempt = Resolves response.

Lemma attemptOnce_503_retry :
  status response = 503%Z -> attempt < MAX_RETRIES ->
  attemptOnce aiModel endpoint attempt =
  ([Fetch attempt; Wait (RETRY_DELAY * Z.of_nat attempt)], Continue).
Proof.
  intros Hs Hlt. unfold attemptOnce, onResponse, ok.
  rewrite resolves, Hs. simpl.
  apply Nat.ltb_lt in Hlt. rewrite Hlt. reflexivity.
Qed.

Lemma attemptOnce_503_last :
  status response = 503%Z -> MAX_RETRIES <= attempt ->
  attemptOnce aiModel endpoint attempt =
  ([Fetch attempt], Throw (unavailableError 503 (text response))).
Proof.
  intros Hs Hge. unfold attemptOnce, onResponse, onError, ok.
  rewrite resolves, Hs. simpl.
  apply Nat.ltb_ge in Hge. rewrite Hge. reflexivity.
Qed.

Lemma attemptOnce_success (data : JValue) (content : option JValue) :
  ok response = true -> json response = inr data ->
  contentOf data = inr content ->
  attemptOnce aiModel endpoint attempt = ([Fetch attempt], Return aiModel content).
Proof.
  intros Hok Hj Hc. unfold attemptOnce, onResponse.
  rewrite resolves, Hok, Hj, Hc. reflexivity.
Qed.

(** Any other status that is not a success throws [apiError]; the
    [catch] block then sees it, and lets it through when no attempt is
    left or its message does not hold the word it looks for. *)
Lemma attemptOnce_other_status :
  ok response = false -> status response <> 503%Z ->
  attemptOnce aiModel endpoint attempt =
  (if (attempt <? MAX_RETRIES)
      && includes (lit "fetch")
           (message (apiError (status response) (text response)))
   then ([Fetch attempt; Wait (RETRY_DELAY * Z.of_nat attempt)], Continue)
   else ([Fetch attempt],
         Throw (apiError (status response) (text response)))).
Proof.
  intros Hok Hs. unfold attemptOnce, onResponse, onError.
  rewrite resolves, Hok. apply Z.eqb_neq in Hs. rewrite Hs. simpl negb. cbv iota.
  cbn [isTypeError apiError newError orb].
  destruct ((attempt <? MAX_RETRIES) && _); reflexivity.
Qed.

End Attempt.

(** C2. With a key configured: when the endpoint answers attempts 1 and
    2 with status 503 and attempt 3 with a success, the client returns
    the result of attempt 3 after three attempts and the two delays
    [RETRY_DELAY * 1] and [RETRY_DELAY * 2]; when it answers all three
    attempts with status 503, the client makes the same three attempts
    and two delays and then throws the service-unavailable error, with
    nothing after the third attempt. *)
Theorem C2_retry_on_503 (configured : option jsstring) (aiModel : jsstring)
  (endpoint : nat -> FetchOutcome) (r1 r2 : Response) :
  keyMissing (groqApiKey configured) = false ->
  unavailable (endpoint 1) r1 ->
  unavailable (endpoint 2) r2 ->
  (forall content, succeeds (endpoint 3) content ->
     groqResponse configured aiModel endpoint =
     ([Fetch 1; Wait (RETRY_DELAY * 1); Fetch 2; Wait (RETRY_DELAY * 2);
       Fetch 3], Returned aiModel content)) /\
  (forall r3, unavailable (endpoint 3) r3 ->
     groqResponse configured aiModel endpoint =
     ([Fetch 1; Wait (RETRY_DELAY * 1); Fetch 2; Wait (RETRY_DELAY * 2);
       Fetch 3], Thrown (unavailableError 503 (text r3)))).
Proof.
  intros Hkey [H1 S1] [H2 S2]. unfold groqResponse. rewrite Hkey.
  change (retryLoop aiModel endpoint MAX_RETRIES 1)
    with (retryLoop aiModel endpoint 3 1). cbn [retryLoop].
  rewrite (@attemptOnce_503_retry aiModel endpoint _ _ H1 S1) by (unfold MAX_RETRIES; lia).
  rewrite (@attemptOnce_503_retry aiModel endpoint _ _ H2 S2) by (unfold MAX_RETRIES; lia).
  split.
  - intros content [r [data [H3 [Hok [Hj Hc]]]]].
    rewrite (@attemptOnce_success aiModel endpoint _ _ H3 _ _ Hok Hj Hc). reflexivity.
  - intros r3 [H3 S3].
    rewrite (@attemptOnce_503_last aiModel endpoint _ _ H3 S3) by (unfold MAX_RETRIES; lia).
    reflexivity.
Qed.

Lemma C2_retry_on_503_witness :
  groqResponse (Some (lit "key")) (lit "llama3-8b-8192") recovers =
  ([Fetch 1; Wait 2000; Fetch 2; Wait 4000; Fetch 3],
   Returned (lit "llama3-8b-8192") (Some (JString (lit "hi")))) /\
  groqResponse (Some (lit "key")) (lit "llama3-8b-8192") (fun _ => busy) =
  ([Fetch 1; Wait 2000; Fetch 2; Wait 4000; Fetch 3],
   Thrown (unavailableError 503 (lit "busy"))).
Proof.
  split.
  - apply (proj1 (@C2_retry_on_503 (Some (lit "key")) (lit "llama3-8b-8192")
                    recovers (mkResponse 503 (lit "busy") (inr JNull))
                    (mkResponse 503 (lit "busy") (inr JNull))
                    eq_refl (conj eq_refl eq_refl) (conj eq_refl eq_refl))).
    exists (mkResponse 200 [] (inr completionHi)), completionHi.
    repeat split.
  - apply (proj2 (@C2_retry_on_503 (Some (lit "key")) (lit "llama3-8b-8192")
                    (fun _ => busy) (mkResponse 503 (lit "busy") (inr JNull))
                    (mkResponse 503 (lit "busy") (inr JNull))
                    eq_refl (conj eq_refl eq_refl) (conj eq_refl eq_refl))
             (mkResponse 503 (lit "busy") (inr JNull))).
    split; reflexivity.
Defined.

(** C7. The claim is that a status that is neither a success nor 503
    ends the call on that attempt, whatever attempts remain.  The
    source throws the error inside the [try] block whose [catch] block
    retries any error with [fetch] in its message, and the message
    embeds the response body: a status 500 whose body holds that word
    is retried with the delays of a network failure, and the error only
    leaves on the last attempt. *)
Theorem C7_other_status_is_retried_when_body_mentions_fetch :
  groqResponse (Some (lit "key")) (lit "llama3-8b-8192")
    (fun _ => upstreamFailure) =
  ([Fetch 1; Wait 2000; Fetch 2; Wait 4000; Fetch 3],
   Thrown (newError (lit "Groq API error: 500 - upstream fetch failed"))).
Proof. vm_compute. reflexivity. Qed.

(** Whatever makes one attempt throw ends the call with the events of
    that attempt only. *)
Lemma groqResponse_first_attempt_throws (configured : option jsstring)
  (aiModel : jsstring) (endpoint : nat -> FetchOutcome)
  (ev : list Event) (e : JsError) :
  keyMissing (groqApiKey configured) = false ->
  attemptOnce aiModel endpoint 1 = (ev, Throw e) ->
  groqResponse configured aiModel endpoint = (ev, Thrown e).
Proof.
  intros Hkey H. unfold groqResponse. rewrite Hkey.
  change (retryLoop aiModel endpoint MAX_RETRIES 1)
    with (retryLoop aiModel endpoint 3 1).
  cbn [retryLoop]. rewrite H. reflexivity.
Qed.

(** A status that is neither a success nor 503 ends the call at once
    when the message of its error does not hold the word the [catch]
    block looks for. *)
Lemma groqResponse_other_status (configured : option jsstring)
  (aiModel : jsstring) (endpoint : nat -> FetchOutcome) (r : Response) :
  keyMissing (groqApiKey configured) = false ->
  endpoint 1 = Resolves r -> ok r = false -> status r <> 503%Z ->
  includes (lit "fetch") (message (apiError (status r) (text r))) = false ->
  groqResponse configured aiModel endpoint
  = ([Fetch 1], Thrown (apiError (status r) (text r))).
Proof.
  intros Hkey H1 Hok Hs Hm.
  apply groqResponse_first_attempt_throws; [exact Hkey|].
  rewrite (@attemptOnce_other_status aiModel endpoint _ _ H1 Hok Hs), Hm.
  rewrite andb_false_r. reflexivity.
Qed.

Lemma ofZ_no_f (z : Z) : Forall (fun c => c <> 102%N) (ofZ z).
Proof.
  assert (Hu : forall d, Forall (fun c => c <> 102%N)
                           (lit (NilEmpty.string_of_uint d))).
  { induction d; cbn [NilEmpty.string_of_uint lit]; constructor;
      try assumption; intros H; vm_compute in H; discriminate. }
  unfold ofZ. destruct (Z.to_int z) as [d|d]; cbn [NilEmpty.string_of_int lit].
  - apply Hu.
  - constructor; [intros H; vm_compute in H; discriminate | apply Hu].
Qed.

Lemma includes_after (c0 : N) (p a s : jsstring) :
  Forall (fun c => c <> c0) a ->
  includes (c0 :: p) (a ++ s) = includes (c0 :: p) s.
Proof.
  induction 1 as [|c a Hc Ha IH]; [reflexivity|].
  cbn [app includes startsWith].
  apply N.eqb_neq in Hc. rewrite N.eqb_sym, Hc. exact IH.
Qed.

(** The message of [apiError] holds the word the [catch] block looks
    for exactly when the response body does. *)
Lemma apiError_mentions_fetch (statusCode : Z) (errorText : jsstring) :
  includes (lit "fetch") (message (apiError statusCode errorText))
  = includes (lit "fetch") errorText.
Proof.
  unfold apiError, newError. cbn [message].
  rewrite !app_assoc. apply includes_after.
  assert (Hlit : forall w, forallb (fun c => negb (N.eqb c 102)) (lit w) = true ->
                           Forall (fun c => c <> 102%N) (lit w)).
  { intros w Hw. apply Forall_forall. intros c Hc.
    rewrite forallb_forall in Hw. specialize (Hw c Hc).
    apply negb_true_iff, N.eqb_neq in Hw. exact Hw. }
  apply Forall_app. split; [apply Forall_app; split|].
  - apply Hlit. reflexivity.
  - apply ofZ_no_f.
  - apply Hlit. reflexivity.
Qed.

(** A status that is neither a success nor 503 ends the call on the
    first attempt exactly when its body does not hold that word;
    otherwise the client waits and makes a second attempt. *)
Lemma groqResponse_other_status_body (configured : option jsstring)
  (aiModel : jsstring) (endpoint : nat -> FetchOutcome) (r : Response) :
  keyMissing (groqApiKey configured) = false ->
  endpoint 1 = Resolves r -> ok r = false -> status r <> 503%Z ->
  (includes (lit "fetch") (text r) = false ->
   groqResponse configured aiModel endpoint
   = ([Fetch 1], Thrown (apiError (status r) (text r)))) /\
  (includes (lit "fetch") (text r) = true ->
   exists ev o,
     groqResponse configured aiModel endpoint
     = (Fetch 1 :: Wait (RETRY_DELAY * 1) :: Fetch 2 :: ev, o)).
Proof.
  intros Hkey H1 Hok Hs. split; intros Hb.
  - apply groqResponse_other_status; try assumption.
    rewrite apiError_mentions_fetch. exact Hb.
  - unfold groqResponse. rewrite Hkey.
    change (retryLoop aiModel endpoint MAX_RETRIES 1)
      with (retryLoop aiModel endpoint 3 1).
    cbn [retryLoop].
    rewrite (@attemptOnce_other_status aiModel endpoint _ _ H1 Hok Hs).
    rewrite apiError_mentions_fetch, Hb. cbn [Nat.ltb Nat.leb MAX_RETRIES andb].
    assert (H2 : exists ev2 c2,
               attemptOnce aiModel endpoint 2 = (Fetch 2 :: ev2, c2)).
    { unfold attemptOnce. destruct (endpoint 2) as [e|r2].
      - destruct (onError 2 e) as [ev' c']. simpl. eauto.
      - destruct (onResponse aiModel 2 r2) as [ev [|m c|e]]; simpl; eauto.
        destruct (onError 2 e) as [ev' c']. simpl. eauto. }
    destruct H2 as [ev2 [c2 E2]]. rewrite E2.
    destruct c2 as [|m c|e].
    + destruct (attemptOnce aiModel endpoint 3) as [ev3 [|m c|e]];
        simpl; eauto.
    + simpl. eauto.
    + simpl. eauto.
Qed.

(** The loop ends in a [return] or a [throw]: the last iteration never
    continues. *)
Lemma attemptOnce_last_does_not_continue (aiModel : jsstring)
  (endpoint : nat -> FetchOutcome) (attempt : nat) (ev : list Event) :
  MAX_RETRIES <= attempt ->
  attemptOnce aiModel endpoint attempt <> (ev, Continue).
Proof.
  intros Hge. apply Nat.ltb_ge in Hge.
  unfold attemptOnce, onResponse, onError. rewrite Hge. cbn [andb].
  destruct (endpoint attempt) as [e|r]; [discriminate|].
  destruct (negb (ok r)).
  - destruct (status r =? 503)%Z; discriminate.
  - destruct (json r) as [e|data]; [discriminate|].
    destruct (contentOf data); discriminate.
Qed.

Lemma groqResponse_returns_or_throws (configured : option jsstring)
  (aiModel : jsstring) (endpoint : nat -> FetchOutcome) :
  snd (groqResponse configured aiModel endpoint) <> LoopExhausted.
Proof.
  unfold groqResponse. destruct (keyMissing _); [discriminate|].
  change (retryLoop aiModel endpoint MAX_RETRIES 1)
    with (retryLoop aiModel endpoint 3 1).
  cbn [retryLoop].
  destruct (attemptOnce aiModel endpoint 1) as [e1 [|m c|e]]; try discriminate.
  destruct (attemptOnce aiModel endpoint 2) as [e2 [|m c|e]]; try discriminate.
  destruct (attemptOnce aiModel endpoint 3) as [e3 [|m c|e]] eqn:E;
    try discriminate.
  exfalso. revert E. apply attemptOnce_last_does_not_continue.
  unfold MAX_RETRIES. lia.
Qed.

(** C8. Without a credential (none configured, or the empty string) the
    client throws the configuration error and causes no event, so no
    attempt is made, and the submitting screen causes none either; an
    attempt of the client implies a credential that is not empty. *)
Theorem C8_missing_key_fails_before_any_attempt
  (configured : option jsstring) (aiModel : jsstring)
  (endpoint : nat -> FetchOutcome) :
  (configured = None \/ configured = Some [] ->
   groqResponse configured aiModel endpoint = ([], Thrown configurationError)
   /\ forall personName,
        fst (handleSubmit configured personName endpoint) = []) /\
  (forall n, In (Fetch n) (fst (groqResponse configured aiModel endpoint)) ->
   exists c k, configured = Some (c :: k)).
Proof.
  split.
  - intros [-> | ->]; (split; [reflexivity|]); intros personName;
      unfold handleSubmit; simpl; destruct (negb _); reflexivity.
  - intros n. unfold groqResponse.
    destruct configured as [[|c k]|]; simpl; try contradiction.
    intros _. exists c, k. reflexivity.
Qed.

Lemma C8_missing_key_fails_before_any_attempt_witness :
  (groqResponse None (lit "llama3-8b-8192") (fun _ => busy)
   = ([], Thrown configurationError)
   /\ forall personName, fst (handleSubmit None personName (fun _ => busy)) = [])
  /\ exists c k, Some (lit "key") = Some (c :: k).
Proof.
  split.
  - apply (proj1 (C8_missing_key_fails_before_any_attempt
                    None (lit "llama3-8b-8192") (fun _ => busy))).
    left. reflexivity.
  - apply (proj2 (C8_missing_key_fails_before_any_attempt
                    (Some (lit "key")) (lit "llama3-8b-8192") (fun _ => busy)) 1).
    simpl. left. reflexivity.
Defined.

(** ** The normalizer *)

Lemma orStr_app (x y z : jsstring) : y <> [] -> orStr (x ++ y) z = x ++ y.
Proof.
  intros Hy. destruct x; simpl; [|reflexivity].
  destruct y; [contradiction | reflexivity].
Qed.

Lemma orElse_Some (body : jsstring) : orElse (Some body) [] = body.
Proof. destruct body; reflexivity. Qed.

Lemma truthy_nonempty (s : jsstring) : s <> [] -> truthy s = true.
Proof. destruct s; [contradiction | reflexivity]. Qed.

(** The [title] variable of the callback, in the specification's words. *)
Lemma deriveTitle_spec (body : jsstring) :
  body <> [] ->
  deriveTitle body =
  if 80 <? List.length (textBefore (lit ".") body)
  then firstn 60 body ++ lit "..."
  else textBefore (lit ".") body ++ lit ".".
Proof.
  intros Hb. unfold deriveTitle. rewrite (truthy_nonempty Hb).
  rewrite split_at0 by discriminate. reflexivity.
Qed.

(** C9. For a record with a non-empty body the title is the text before
    the first period with a period after it when that text has at most
    80 code units, and the first 60 code units of the body with an
    ellipsis after them otherwise; the body of the specification's
    example gives [Short line.]. *)
Theorem C9_title_derivation (selectedPerson : jsstring)
  (article : NewsArticle) (idx : nat) (body : jsstring) :
  Generated_article article = Some body -> body <> [] ->
  (List.length (textBefore (lit ".") body) <= 80 ->
   title (mapAiArticle selectedPerson article idx)
   = Some (textBefore (lit ".") body ++ lit ".")) /\
  (80 < List.length (textBefore (lit ".") body) ->
   title (mapAiArticle selectedPerson article idx)
   = Some (firstn 60 body ++ lit "...")) /\
  title (mapAiArticle selectedPerson
           (generated (lit "Short line. Rest of article...")) idx)
  = Some (lit "Short line.").
Proof.
  intros Hg Hb. unfold mapAiArticle. cbn [title]. rewrite Hg, orElse_Some.
  rewrite (deriveTitle_spec Hb). repeat split.
  - intros Hle. apply Nat.ltb_ge in Hle. rewrite Hle.
    rewrite orStr_app by discriminate. reflexivity.
  - intros Hlt. apply Nat.ltb_lt in Hlt. rewrite Hlt.
    rewrite orStr_app by discriminate. reflexivity.
Qed.

Lemma C9_title_derivation_witness :
  title (mapAiArticle (lit "Ada") (generated (lit "Hello world. More")) 0)
  = Some (lit "Hello world.").
Proof.
  apply (proj1 (@C9_title_derivation (lit "Ada") (generated (lit "Hello world. More"))
                  0 (lit "Hello world. More") eq_refl ltac:(discriminate))).
  simpl. lia.
Defined.

(** The fallback to the text before the first single newline never
    applies: the text before the first blank line is empty only when the
    body starts with a newline. *)
Lemma firstParagraph_fallback (body : jsstring) :
  orStr (textBefore [LF; LF] body) (textBefore [LF] body)
  = textBefore [LF; LF] body.
Proof.
  destruct body as [|c b]; [reflexivity|].
  cbn [textBefore]. destruct (startsWith [LF; LF] (c :: b)) eqn:E.
  - cbn [orStr]. cbn [startsWith] in E |- *.
    apply andb_true_iff in E as [E _]. rewrite E. reflexivity.
  - reflexivity.
Qed.

(** The [summary] variable of the callback, in the specification's
    words. *)
Lemma deriveSummary_spec (body : jsstring) :
  body <> [] ->
  deriveSummary body =
  let firstParagraph :=
    orStr (textBefore [LF; LF] body) (textBefore [LF] body) in
  if 200 <? List.length firstParagraph
  then firstn 200 firstParagraph ++ lit "..."
  else firstParagraph.
Proof.
  intros Hb. unfold deriveSummary. rewrite (truthy_nonempty Hb).
  rewrite !split_at0 by discriminate. reflexivity.
Qed.

(** C4, as stated, fails on a body that starts with a blank line: the
    text before the first double newline is empty, and so is the text
    before the first single newline, but the summary of the article is
    the body with an ellipsis after it. *)
Lemma C4_summary_counterexample :
  textBefore [LF; LF] blankLineFirst = [] /\
  textBefore [LF] blankLineFirst = [] /\
  summary (mapAiArticle (lit "Ada") (generated blankLineFirst) 0)
  = Some (blankLineFirst ++ lit "...").
Proof. vm_compute. repeat split. Qed.

(** C4, amended.  For a record with a non-empty body, let the first
    paragraph be the text before the first double newline, or the text
    before the first single newline when that is empty.  When it is not
    empty and has at most 200 code units, the summary is that paragraph;
    when it has more, the summary is its first 200 code units and an
    ellipsis; when it is empty, the summary is the first 200 code units
    of the body and an ellipsis. *)
Theorem C4_summary_derivation (selectedPerson : jsstring)
  (article : NewsArticle) (idx : nat) (body : jsstring) :
  Generated_article article = Some body -> body <> [] ->
  let firstParagraph :=
    orStr (textBefore [LF; LF] body) (textBefore [LF] body) in
  (firstParagraph <> [] -> List.length firstParagraph <= 200 ->
   summary (mapAiArticle selectedPerson article idx) = Some firstParagraph) /\
  (200 < List.length firstParagraph ->
   summary (mapAiArticle selectedPerson article idx)
   = Some (firstn 200 firstParagraph ++ lit "...")) /\
  (firstParagraph = [] ->
   summary (mapAiArticle selectedPerson article idx)
   = Some (firstn 200 body ++ lit "...")).
Proof.
  intros Hg Hb p. unfold mapAiArticle. cbn [summary].
  rewrite Hg, orElse_Some, (deriveSummary_spec Hb). fold p. cbv zeta.
  repeat split.
  - intros Hp Hle. apply Nat.ltb_ge in Hle. rewrite Hle.
    destruct p; [contradiction | reflexivity].
  - intros Hlt. apply Nat.ltb_lt in Hlt. rewrite Hlt.
    rewrite orStr_app by discriminate. reflexivity.
  - intros Hp. rewrite Hp. reflexivity.
Qed.

Lemma C4_summary_derivation_witness :
  summary (mapAiArticle (lit "Ada")
             (generated (lit "First." ++ [LF; LF] ++ lit "Second.")) 0)
  = Some (lit "First.").
Proof.
  apply (proj1 (@C4_summary_derivation (lit "Ada")
                  (generated (lit "First." ++ [LF; LF] ++ lit "Second.")) 0
                  (lit "First." ++ [LF; LF] ++ lit "Second.")
                  eq_refl ltac:(discriminate))).
  - discriminate.
  - simpl. lia.
Defined.

(** C3, as stated, fails on the vendor path: the article of a vendor
    record without a title has no [title] and an empty [originalTitle]. *)
Lemma C3_vendor_counterexample :
  title (mapApiArticleToNewsArticle untitled 0) = None /\
  originalTitle (mapApiArticleToNewsArticle untitled 0) = Some [].
Proof. split; reflexivity. Qed.

Lemma deriveTitle_nonempty (body : jsstring) :
  body <> [] -> deriveTitle body <> [].
Proof.
  intros Hb. rewrite (deriveTitle_spec Hb).
  destruct (80 <? _); intros H; apply app_eq_nil in H as [_ H]; discriminate.
Qed.

(** C3, amended.  Every article of the generated path has a non-empty
    title: the derived one, or, when the record has no body or an empty
    one, the synthesized perspective title.  An article of the vendor
    path has no title; its original title is the vendor's title, and is
    non-empty exactly when the vendor's title is. *)
Theorem C3_title_present (selectedPerson : jsstring) (article : NewsArticle)
  (apiArticle : ApiArticle) (idx : nat) :
  nonEmpty (title (mapAiArticle selectedPerson article idx)) /\
  (orElse (Generated_article article) [] = [] ->
   title (mapAiArticle selectedPerson article idx)
   = Some (selectedPerson ++ lit "'s Perspective on Current Events")) /\
  title (mapApiArticleToNewsArticle apiArticle idx) = None /\
  originalTitle (mapApiArticleToNewsArticle apiArticle idx)
  = Some (orElse (api_title apiArticle) []) /\
  (nonEmpty (originalTitle (mapApiArticleToNewsArticle apiArticle idx))
   <-> nonEmpty (api_title apiArticle)).
Proof.
  unfold mapAiArticle, mapApiArticleToNewsArticle, nonEmpty.
  cbn [title originalTitle]. repeat split.
  - destruct (orElse (Generated_article article) []) as [|c b] eqn:E.
    + cbn. destruct selectedPerson as [|d p]; simpl; eauto.
    + pose proof (@deriveTitle_nonempty (c :: b) ltac:(discriminate)) as Hn.
      destruct (deriveTitle (c :: b)) as [|d t]; [contradiction|].
      cbn. eauto.
  - intros ->. reflexivity.
  - intros [c [s H]]. destruct (api_title apiArticle) as [[|d t]|];
      cbn in H; try discriminate. eauto.
  - intros [c [s ->]]. cbn. eauto.
Qed.

Lemma C3_title_present_witness :
  title (mapAiArticle (lit "Ada") emptyArticle 0)
  = Some (lit "Ada's Perspective on Current Events").
Proof.
  apply (proj1 (proj2 (C3_title_present (lit "Ada") emptyArticle untitled 0))).
  reflexivity.
Defined.

Lemma mapi_from_nth_error {A B : Type} (f : A -> nat -> B) (l : list A)
  (i k : nat) :
  nth_error (mapi_from f i l) k
  = option_map (fun a => f a (i + k)) (nth_error l k).
Proof.
  revert i k; induction l as [|x l IH]; intros i k.
  - destruct k; reflexivity.
  - destruct k; simpl.
    + rewrite Nat.add_0_r. reflexivity.
    + rewrite IH. rewrite Nat.add_succ_r. reflexivity.
Qed.

(** C10.  The image of an article depends on its position modulo the
    length of the rotation, which is 5, and on nothing else; and the
    article made of a record depends on the record, its position and
    the person only: two runs that find the same record at the same
    position make the same article of it. *)
Theorem C10_normalization_deterministic (person : jsstring)
  (article : NewsArticle) (idx : nat) :
  List.length newsImages = 5 /\
  imageUrl (mapAiArticle person article idx)
  = nth_error newsImages (idx mod 5) /\
  (forall person' article' idx',
     idx mod 5 = idx' mod 5 ->
     imageUrl (mapAiArticle person article idx)
     = imageUrl (mapAiArticle person' article' idx')) /\
  (forall run1 run2,
     nth_error run1 idx = Some article ->
     nth_error run2 idx = Some article ->
     nth_error (mapAiArticles person run1) idx
     = Some (mapAiArticle person article idx) /\
     nth_error (mapAiArticles person run2) idx
     = nth_error (mapAiArticles person run1) idx).
Proof.
  split; [reflexivity|]. split; [reflexivity|]. split.
  - intros person' article' idx' H. unfold mapAiArticle. cbn [imageUrl].
    unfold getRandomNewsImage. change (List.length newsImages) with 5.
    rewrite H. reflexivity.
  - intros run1 run2 H1 H2. unfold mapAiArticles, mapi.
    rewrite !mapi_from_nth_error, H1, H2. split; reflexivity.
Qed.

Lemma C10_normalization_deterministic_witness :
  imageUrl (mapAiArticle (lit "Ada") (generated (lit "First.")) 1)
  = imageUrl (mapAiArticle (lit "Bob") (generated (lit "Second.")) 6) /\
  nth_error (mapAiArticles (lit "Ada")
               [generated (lit "Zero."); generated (lit "First.")]) 1
  = Some (mapAiArticle (lit "Ada") (generated (lit "First.")) 1).
Proof.
  split.
  - apply (proj1 (proj2 (proj2 (C10_normalization_deterministic
                                  (lit "Ada") (generated (lit "First.")) 1)))).
    reflexivity.
  - apply (proj2 (proj2 (proj2 (C10_normalization_deterministic
                                  (lit "Ada") (generated (lit "First.")) 1)))
             [generated (lit "Zero."); generated (lit "First.")]
             [generated (lit "Other."); generated (lit "First.")]);
      reflexivity.
Defined.

(** ** The parser *)

(** C1, as stated, fails on the empty array: the text is clean and
    decodes to an array without elements, which the parser keeps as it
    is, so it yields no record at all. *)
Lemma C1_empty_array_counterexample :
  cleanAiText (lit "[]") = lit "[]" /\
  JSON_parse (lit "[]") = Some (JArray []) /\
  parseAiResponse (Some (lit "[]")) = Some [].
Proof. vm_compute. repeat split. Qed.

(** A clean text may start with a space, which the decoder would skip
    but the parser's test for a bracket does not: such an array is kept
    as plain text. *)
Example parseAiResponse_leading_space :
  let raw := [1%N] ++ lit " [1,2]" in
  cleanAiText raw = lit " [1,2]" /\
  JSON_parse (cleanAiText raw)
  = Some (JArray [JNumber (lit "1"); JNumber (lit "2")]) /\
  parseAiResponse (Some raw) = Some [syntheticRecord (lit " [1,2]")].
Proof. vm_compute. repeat split. Qed.

(** The records of a response that is not empty, and the three cases
    they come from. *)
Lemma parseAiResponse_cases (raw : jsstring) :
  raw <> [] ->
  exists records,
    parseAiResponse (Some raw) = Some records /\
    ((startsWith (lit "[") (cleanAiText raw) = true /\
      exists elems,
        JSON_parse (cleanAiText raw) = Some (JArray elems) /\ records = elems)
     \/
     (startsWith (lit "{") (cleanAiText raw) = true /\
      exists m,
        JSON_parse (cleanAiText raw) = Some (JObject m) /\
        records = [JObject m])
     \/
     (((startsWith (lit "[") (cleanAiText raw) = false /\
        startsWith (lit "{") (cleanAiText raw) = false) \/
       JSON_parse (cleanAiText raw) = None) /\
      records = [syntheticRecord (cleanAiText raw)])).
Proof.
  intros Hr. destruct raw as [|c r]; [contradiction|].
  cbn [parseAiResponse]. set (aiText := cleanAiText (c :: r)).
  eexists. split; [reflexivity|].
  destruct (startsWith (lit "[") aiText) eqn:B.
  - cbn [orb]. destruct (JSON_parse aiText) as [v|] eqn:P.
    + destruct (JSON_parse_bracket _ B P) as [elems ->].
      left. split; [reflexivity|]. exists elems. split; reflexivity.
    + right. right. split; [right|]; reflexivity.
  - cbn [orb]. destruct (startsWith (lit "{") aiText) eqn:C.
    + destruct (JSON_parse aiText) as [v|] eqn:P.
      * destruct (JSON_parse_brace _ C P) as [m ->].
        right. left. split; [reflexivity|]. exists m. split; reflexivity.
      * right. right. split; [right|]; reflexivity.
    + right. right. split; [left; split|]; reflexivity.
Qed.

(** C1, amended.  The parser never raises.  Without a response, or for
    the empty one, nothing is parsed and there is no record.  For a
    response that is not empty its result is one of three: when the
    cleaned text starts with a bracket and decodes to an array, the
    elements of that array, as many as there are, none for the empty
    array; when it starts with a brace and decodes to an object, that
    object alone; and when it starts with neither or does not decode,
    the one synthetic record, whose generated article is the whole
    cleaned text.  So there is at least one record unless the cleaned
    text is an array without elements. *)
Theorem C1_parser_record_count (raw : jsstring) :
  parseAiResponse None = None /\
  parseAiResponse (Some []) = None /\
  (raw <> [] ->
   let aiText := cleanAiText raw in
   exists records,
     parseAiResponse (Some raw) = Some records /\
     ((startsWith (lit "[") aiText = true /\
       exists elems,
         JSON_parse aiText = Some (JArray elems) /\ records = elems)
      \/
      (startsWith (lit "{") aiText = true /\
       exists m, JSON_parse aiText = Some (JObject m) /\ records = [JObject m])
      \/
      (((startsWith (lit "[") aiText = false /\
         startsWith (lit "{") aiText = false) \/ JSON_parse aiText = None) /\
       records = [syntheticRecord aiText])) /\
     (1 <= List.length records \/
      (startsWith (lit "[") aiText = true /\
       JSON_parse aiText = Some (JArray []))) /\
     field (lit "Generated article") (syntheticRecord aiText)
     = Some (JString aiText)).
Proof.
  split; [reflexivity|]. split; [reflexivity|].
  intros Hr aiText. subst aiText.
  destruct (parseAiResponse_cases Hr) as [records [E Hcases]].
  exists records. split; [exact E|]. split; [exact Hcases|].
  split; [|reflexivity].
  destruct Hcases as [[B [elems [P R]]] | [[C [m [P R]]] | [_ R]]];
    rewrite R; try (left; simpl; lia).
  destruct elems as [|e elems]; [right; split; assumption | left; simpl; lia].
Qed.

Lemma C1_parser_record_count_witness :
  exists records,
    parseAiResponse (Some (lit "  Sorry, no news today. ")) = Some records /\
    1 <= List.length records.
Proof.
  destruct (proj2 (proj2 (C1_parser_record_count
                            (lit "  Sorry, no news today. ")))
              ltac:(discriminate))
    as [records [E [_ [[H | [_ H]] _]]]].
  - exists records. split; [exact E | exact H].
  - discriminate H.
Defined.

(** A fenced array of two records gives those two records. *)
Example parseAiResponse_two_records :
  parseAiResponse
    (Some (lit "```json" ++ [LF]
     ++ lit "[{" ++ quoted "Generated article" ++ lit ": " ++ quoted "One."
     ++ lit "}, {" ++ quoted "Generated article" ++ lit ": " ++ quoted "Two."
     ++ lit "}]" ++ [LF] ++ lit "```"))
  = Some [ JObject [(lit "Generated article", JString (lit "One."))];
           JObject [(lit "Generated article", JString (lit "Two."))] ].
Proof. vm_compute. reflexivity. Qed.

(** Prose gives the synthetic record of the prose. *)
Example parseAiResponse_prose :
  parseAiResponse (Some (lit "  Sorry, no news today. "))
  = Some [syntheticRecord (lit "Sorry, no news today.")].
Proof. vm_compute. reflexivity. Qed.

(** ** The renderer *)

Lemma assoc_In {A : Type} (k : jsstring) (l : list (jsstring * A)) (v : A) :
  assoc k l = Some v -> In (k, v) l.
Proof.
  induction l as [|[k' w] l IH]; simpl; [discriminate|].
  destruct (JsString.eqb k k') eqn:E.
  - apply eqb_true_iff in E. intros H; injection H as ->. subst. left. reflexivity.
  - intros H. right. exact (IH H).
Qed.

Lemma assoc_None {A : Type} (k : jsstring) (l : list (jsstring * A)) :
  (forall k' v, In (k', v) l -> k' <> k) -> assoc k l = None.
Proof.
  induction l as [|[k' w] l IH]; simpl; intros H; [reflexivity|].
  destruct (JsString.eqb k k') eqn:E.
  - apply eqb_true_iff in E. exfalso. apply (H k' w); [left; reflexivity | congruence].
  - apply IH. intros k'' v Hin. apply (H k'' v). right. exact Hin.
Qed.

Lemma assoc_of_In {A : Type} (k : jsstring) (l : list (jsstring * A)) (v : A) :
  In (k, v) l -> exists w, assoc k l = Some w.
Proof.
  induction l as [|[k' w] l IH]; simpl; [contradiction|].
  intros [H | H].
  - injection H as -> ->. rewrite (proj2 (eqb_true_iff k k) eq_refl). eauto.
  - destruct (JsString.eqb k k'); eauto.
Qed.

(** Every template of the table holds the title and the summary it is
    given. *)
Lemma templates_interpolate (name : jsstring)
  (template : jsstring -> jsstring -> jsstring) (title summary : jsstring) :
  In (name, template) articleTemplates ->
  occursIn title (template title summary) /\
  occursIn summary (template title summary).
Proof.
  unfold articleTemplates. simpl.
  intros [H | [H | [H | [H | []]]]]; injection H as _ <-; split;
    cbv beta delta [einsteinTemplate oprahTemplate muskTemplate defaultTemplate];
    match goal with
    | |- occursIn ?t (?a ++ ?q ++ ?t ++ ?rest) =>
        exists (a ++ q), rest; rewrite <- app_assoc; reflexivity
    | |- occursIn ?t (?a ++ ?q ++ ?x ++ ?q' ++ ?b ++ ?t ++ ?rest) =>
        exists (a ++ q ++ x ++ q' ++ b), rest;
        repeat rewrite <- app_assoc; reflexivity
    end.
Qed.

(** For a name that is not the name of a member of [Object.prototype],
    the renderer gives the text of the template the table has under
    exactly that name, and the text of the default template when it has
    none; either way the text holds the title and the summary. *)
Lemma generateFullAIArticle_spec (person title summary : jsstring) :
  (forall p, protoName p <> person) ->
  exists template,
    generateFullAIArticle person title summary = Text (template title summary) /\
    (In (person, template) articleTemplates \/
     ((forall name f, In (name, f) articleTemplates -> name <> person) /\
      template = defaultTemplate)) /\
    renders title (Text (template title summary)) = true /\
    renders summary (Text (template title summary)) = true.
Proof.
  intros Hproto. unfold generateFullAIArticle, getTemplate.
  destruct (assoc person articleTemplates) as [f|] eqn:E.
  - apply assoc_In in E. exists f.
    destruct (templates_interpolate title summary E) as [Ht Hs].
    cbn [renders]. rewrite !(proj2 (includes_true_iff _ _)) by assumption.
    repeat split. left. exact E.
  - rewrite assoc_None.
    + exists defaultTemplate.
      assert (Hd : In (lit "Default", defaultTemplate) articleTemplates)
        by (unfold articleTemplates; simpl; tauto).
      destruct (templates_interpolate title summary Hd) as [Ht Hs].
      cbn [renders]. rewrite !(proj2 (includes_true_iff _ _)) by assumption.
      repeat split. right. split; [|reflexivity].
      intros name f Hin ->.
      destruct (assoc_of_In _ _ _ Hin) as [w Hw]. congruence.
    + intros k' v Hin. apply in_map_iff in Hin as [p [Hp _]].
      injection Hp as <- _. apply Hproto.
Qed.

(** For the name of a member of [Object.prototype] the renderer calls
    that member, whatever the title and the summary. *)
Lemma generateFullAIArticle_inherited (p : ProtoMember)
  (title summary : jsstring) :
  generateFullAIArticle (protoName p) title summary
  = callInherited p title summary.
Proof. destruct p; reflexivity. Qed.

(** C5.  The claim is that the rendered text always holds the title and
    the summary, and that a name the table does not have gets the
    default template.  The table is an object literal, and a read of it
    also finds what every object inherits: for the name [toString] the
    renderer calls that member instead of a template, and the result
    holds neither the title nor the summary. *)
Theorem C5_inherited_member_is_rendered :
  assoc (lit "toString") articleTemplates = None /\
  getTemplate (lit "toString") = Some (Inherited P_toString) /\
  generateFullAIArticle (lit "toString") (lit "T") (lit "S")
  = Text (lit "[object Undefined]") /\
  renders (lit "T") (generateFullAIArticle (lit "toString") (lit "T") (lit "S"))
  = false /\
  renders (lit "S") (generateFullAIArticle (lit "toString") (lit "T") (lit "S"))
  = false.
Proof. vm_compute. repeat split. Qed.

(** The names of the specification's examples: a name of the table, and
    one the table does not have. *)
Example generateFullAIArticle_examples :
  generateFullAIArticle (lit "Albert Einstein") (lit "T") (lit "S")
  = Text (einsteinTemplate (lit "T") (lit "S")) /\
  generateFullAIArticle (lit "Unknown Person") (lit "T") (lit "S")
  = Text (defaultTemplate (lit "T") (lit "S")) /\
  generateFullAIArticle (lit "albert einstein") (lit "T") (lit "S")
  = Text (defaultTemplate (lit "T") (lit "S")).
Proof. vm_compute. repeat split. Qed.

(** ** The effect as a whole *)

(** A fenced array of two records becomes two articles, with the titles
    and summaries of their bodies and the first two images. *)
Example aiResponseEffect_two_records :
  let raw :=
    lit "```json" ++ [LF]
    ++ lit "[{" ++ quoted "Generated article" ++ lit ": " ++ quoted "One. More."
    ++ lit "}, {" ++ quoted "Generated article" ++ lit ": " ++ quoted "Two"
    ++ lit ", " ++ quoted "Timestamp" ++ lit ": " ++ quoted "Monday"
    ++ lit "}]" ++ [LF] ++ lit "```" in
  aiResponseEffect decimalIsZero (Some raw) (lit "Ada")
  = SetArticles
      [ objectOf (mapAiArticle (lit "Ada") (generated (lit "One. More.")) 0);
        objectOf (mapAiArticle (lit "Ada")
                    (mkNewsArticle None None None None None None None None
                       None None (Some (lit "Two")) None (Some (lit "Monday"))
                       None) 1) ].
Proof. vm_compute. reflexivity. Qed.

(** Records that are not objects become articles without a body; a
    record that is [null], or whose generated article is an array,
    makes the mapping throw; and without a response nothing is done. *)
Example aiResponseEffect_other_records :
  aiResponseEffect decimalIsZero (Some (lit "[1,2]")) (lit "Ada")
  = SetArticles [ objectOf (mapAiArticle (lit "Ada") emptyArticle 0);
                  objectOf (mapAiArticle (lit "Ada") emptyArticle 1) ] /\
  aiResponseEffect decimalIsZero (Some (lit "[null]")) (lit "Ada")
  = EffectThrows /\
  aiResponseEffect decimalIsZero
    (Some (lit "[{" ++ quoted "Generated article" ++ lit ": [1]}]")) (lit "Ada")
  = EffectThrows /\
  aiResponseEffect decimalIsZero (Some []) (lit "Ada") = EffectSkipped /\
  aiResponseEffect decimalIsZero None (lit "Ada") = EffectSkipped.
Proof. vm_compute. repeat split. Qed.

(** * Further properties *)

(** ** The retry client, for any endpoint *)

(** One iteration makes one attempt, and either ends the call or waits
    the delay of that attempt and continues, which it does only while
    attempts remain. *)
Lemma attemptOnce_shape (aiModel : jsstring) (endpoint : nat -> FetchOutcome)
  (attempt : nat) :
  (exists c, attemptOnce aiModel endpoint attempt = ([Fetch attempt], c)
             /\ c <> Continue) \/
  (attemptOnce aiModel endpoint attempt
   = ([Fetch attempt; Wait (RETRY_DELAY * Z.of_nat attempt)], Continue)
   /\ attempt < MAX_RETRIES).
Proof.
  unfold attemptOnce, onResponse, onError.
  destruct (attempt <? MAX_RETRIES) eqn:L.
  - apply Nat.ltb_lt in L. destruct (endpoint attempt) as [e|r].
    + cbn [andb]. destruct (isTypeError e || _).
      * right. split; [reflexivity | exact L].
      * left. eexists. split; [reflexivity | discriminate].
    + destruct (negb (ok r)).
      * destruct (status r =? 503)%Z.
        -- right. split; [reflexivity | exact L].
        -- cbn [andb isTypeError apiError newError orb message].
           destruct (includes _ _).
           ++ right. split; [reflexivity | exact L].
           ++ left. eexists. split; [reflexivity | discriminate].
      * destruct (json r) as [e|data].
        -- cbn [andb]. destruct (isTypeError e || _).
           ++ right. split; [reflexivity | exact L].
           ++ left. eexists. split; [reflexivity | discriminate].
        -- destruct (contentOf data) as [e|content].
           ++ cbn [andb]. destruct (isTypeError e || _).
              ** right. split; [reflexivity | exact L].
              ** left. eexists. split; [reflexivity | discriminate].
           ++ left. eexists. split; [reflexivity | discriminate].
  - left. cbn [andb]. destruct (endpoint attempt) as [e|r].
    + eexists. split; [reflexivity | discriminate].
    + destruct (negb (ok r)).
      * destruct (status r =? 503)%Z;
          eexists; (split; [reflexivity | discriminate]).
      * destruct (json r) as [e|data].
        -- eexists. split; [reflexivity | discriminate].
        -- destruct (contentOf data) as [e|content];
             eexists; (split; [reflexivity | discriminate]).
Qed.

Lemma groqResponse_events (configured : option jsstring)
  (aiModel : jsstring) (endpoint : nat -> FetchOutcome) :
  fst (groqResponse configured aiModel endpoint) = []
  /\ keyMissing (groqApiKey configured) = true
  \/ exists n, 1 <= n <= 3 /\
       fst (groqResponse configured aiModel endpoint) = eventsUpTo n.
Proof.
  unfold groqResponse. destruct (keyMissing _); [left; split; reflexivity|].
  right. change (retryLoop aiModel endpoint MAX_RETRIES 1)
    with (retryLoop aiModel endpoint 3 1). cbn [retryLoop].
  destruct (attemptOnce_shape aiModel endpoint 1) as [[c1 [E1 N1]] | [E1 _]];
    rewrite E1.
  { exists 1. split; [lia|]. destruct c1; try contradiction; reflexivity. }
  destruct (attemptOnce_shape aiModel endpoint 2) as [[c2 [E2 N2]] | [E2 _]];
    rewrite E2.
  { exists 2. split; [lia|]. destruct c2; try contradiction; reflexivity. }
  destruct (attemptOnce_shape aiModel endpoint 3) as [[c3 [E3 N3]] | [_ L]].
  - rewrite E3. exists 3. split; [lia|].
    destruct c3; try contradiction; reflexivity.
  - unfold MAX_RETRIES in L. lia.
Qed.

(** X1.  Whatever the endpoint does, a call of the client causes no
    event at all when the key is missing; when there is a key it makes
    one, two or three attempts, numbered from 1, with the delay of
    2000 ms times the number of the attempt before the next one and
    none after the last; and in both cases it ends in a [return] or a
    [throw], never by leaving the loop. *)
Theorem X1_attempts_bounded (configured : option jsstring)
  (aiModel : jsstring) (endpoint : nat -> FetchOutcome) :
  (keyMissing (groqApiKey configured) = true ->
   fst (groqResponse configured aiModel endpoint) = []) /\
  (keyMissing (groqApiKey configured) = false ->
   exists n, 1 <= n <= 3 /\
     fst (groqResponse configured aiModel endpoint) = eventsUpTo n) /\
  snd (groqResponse configured aiModel endpoint) <> LoopExhausted.
Proof.
  split; [|split; [|apply groqResponse_returns_or_throws]].
  - intros K. unfold groqResponse. rewrite K. reflexivity.
  - intros K.
    destruct (groqResponse_events configured aiModel endpoint)
      as [[_ K'] | H]; [congruence | exact H].
Qed.

Lemma X1_attempts_bounded_witness :
  fst (groqResponse None (lit "llama3-8b-8192") (fun _ => busy)) = [] /\
  exists n, 1 <= n <= 3 /\
    fst (groqResponse (Some (lit "gsk_key")) (lit "llama3-8b-8192")
           (fun _ => busy)) = eventsUpTo n.
Proof.
  split.
  - apply (proj1 (X1_attempts_bounded None (lit "llama3-8b-8192")
                    (fun _ => busy))).
    reflexivity.
  - apply (proj1 (proj2 (X1_attempts_bounded (Some (lit "gsk_key"))
                           (lit "llama3-8b-8192") (fun _ => busy)))).
    reflexivity.
Defined.

Lemma attemptOnce_rejects (aiModel : jsstring)
  (endpoint : nat -> FetchOutcome) (attempt : nat) (e : JsError) :
  endpoint attempt = Rejects e ->
  attemptOnce aiModel endpoint attempt =
  (if (attempt <? MAX_RETRIES) && retryable e
   then ([Fetch attempt; Wait (RETRY_DELAY * Z.of_nat attempt)], Continue)
   else ([Fetch attempt], Throw e)).
Proof.
  intros H. unfold attemptOnce, onError, retryable. rewrite H.
  destruct ((attempt <? MAX_RETRIES) && _); reflexivity.
Qed.

(** X2.  A failure of [fetch] itself that is a [TypeError], or has
    [fetch] in its message, is retried like a 503: after two of them
    the client returns the success of attempt 3, or throws the error of
    attempt 3 as it is, whatever that error is. *)
Theorem X2_network_failure_is_retried (configured : option jsstring)
  (aiModel : jsstring) (endpoint : nat -> FetchOutcome) (e1 e2 : JsError) :
  keyMissing (groqApiKey configured) = false ->
  endpoint 1 = Rejects e1 -> retryable e1 = true ->
  endpoint 2 = Rejects e2 -> retryable e2 = true ->
  (forall content, succeeds (endpoint 3) content ->
     groqResponse configured aiModel endpoint
     = (eventsUpTo 3, Returned aiModel content)) /\
  (forall e3, endpoint 3 = Rejects e3 ->
     groqResponse configured aiModel endpoint = (eventsUpTo 3, Thrown e3)).
Proof.
  intros Hkey H1 R1 H2 R2. unfold groqResponse. rewrite Hkey.
  change (retryLoop aiModel endpoint MAX_RETRIES 1)
    with (retryLoop aiModel endpoint 3 1). cbn [retryLoop].
  rewrite (attemptOnce_rejects aiModel endpoint 1 H1), R1.
  rewrite (attemptOnce_rejects aiModel endpoint 2 H2), R2.
  cbn [Nat.ltb Nat.leb MAX_RETRIES andb]. split.
  - intros content [r [data [H3 [Hok [Hj Hc]]]]].
    rewrite (@attemptOnce_success aiModel endpoint _ _ H3 _ _ Hok Hj Hc).
    reflexivity.
  - intros e3 H3. rewrite (attemptOnce_rejects aiModel endpoint 3 H3).
    reflexivity.
Qed.

Lemma X2_network_failure_is_retried_witness :
  groqResponse (Some (lit "key")) (lit "llama3-8b-8192") reconnects
  = (eventsUpTo 3,
     Returned (lit "llama3-8b-8192") (Some (JString (lit "hi")))) /\
  groqResponse (Some (lit "key")) (lit "llama3-8b-8192") (fun _ => offline)
  = (eventsUpTo 3, Thrown (mkJsError true (lit "Network request failed"))).
Proof.
  split.
  - apply (proj1 (@X2_network_failure_is_retried (Some (lit "key"))
                    (lit "llama3-8b-8192") reconnects _ _
                    eq_refl eq_refl eq_refl eq_refl eq_refl)).
    exists (mkResponse 200 [] (inr completionHi)), completionHi.
    repeat split.
  - apply (proj2 (@X2_network_failure_is_retried (Some (lit "key"))
                    (lit "llama3-8b-8192") (fun _ => offline) _ _
                    eq_refl eq_refl eq_refl eq_refl eq_refl)).
    reflexivity.
Defined.

(** X3.  A failure of [fetch] that is not a [TypeError] and has no
    [fetch] in its message ends the call on the first attempt, with
    that error and without a delay. *)
Theorem X3_other_failure_is_not_retried (configured : option jsstring)
  (aiModel : jsstring) (endpoint : nat -> FetchOutcome) (e : JsError) :
  keyMissing (groqApiKey configured) = false ->
  endpoint 1 = Rejects e -> retryable e = false ->
  groqResponse configured aiModel endpoint = ([Fetch 1], Thrown e).
Proof.
  intros Hkey H1 R. apply groqResponse_first_attempt_throws; [exact Hkey|].
  rewrite (attemptOnce_rejects aiModel endpoint 1 H1), R, andb_false_r.
  reflexivity.
Qed.

Lemma X3_other_failure_is_not_retried_witness :
  groqResponse (Some (lit "key")) (lit "llama3-8b-8192") (fun _ => aborted)
  = ([Fetch 1], Thrown (mkJsError false (lit "Aborted"))).
Proof.
  apply (@X3_other_failure_is_not_retried (Some (lit "key"))
           (lit "llama3-8b-8192") (fun _ => aborted) _ eq_refl eq_refl eq_refl).
Defined.

Lemma getMember_error (k : jsstring) (v : option JValue) (e : JsError) :
  getMember k v = inl e -> e = propertyTypeError.
Proof.
  destruct v as [[]|]; simpl; intros H; try discriminate;
    injection H as <-; reflexivity.
Qed.

Lemma getIndex0_error (v : option JValue) (e : JsError) :
  getIndex0 v = inl e -> e = propertyTypeError.
Proof.
  unfold getIndex0.
  repeat match goal with
         | |- context [match ?x with _ => _ end] => destruct x
         end; intros H; try discriminate; injection H as <-; reflexivity.
Qed.

(** The read of the content of a completion throws nothing but the
    [TypeError] of a read on [null] or [undefined]. *)
Lemma contentOf_error (data : JValue) (e : JsError) :
  contentOf data = inl e -> e = propertyTypeError.
Proof.
  unfold contentOf.
  destruct (getMember (lit "choices") (Some data)) as [e1|choices] eqn:E1.
  { intros H; injection H as <-. exact (getMember_error _ _ E1). }
  destruct (getIndex0 choices) as [e2|choice] eqn:E2.
  { intros H; injection H as <-. exact (getIndex0_error _ E2). }
  destruct (getMember (lit "message") choice) as [e3|msg] eqn:E3.
  { intros H; injection H as <-. exact (getMember_error _ _ E3). }
  apply getMember_error.
Qed.

(** X4.  A success whose decoded body has no content to read (no
    [choices], an empty [choices], no [message]) is treated like a
    failure of the network: the read throws a [TypeError], which the
    [catch] block retries, so the client waits and makes a second
    attempt. *)
Theorem X4_malformed_success_is_retried (configured : option jsstring)
  (aiModel : jsstring) (endpoint : nat -> FetchOutcome) (r : Response)
  (data : JValue) (e : JsError) :
  keyMissing (groqApiKey configured) = false ->
  endpoint 1 = Resolves r -> ok r = true -> json r = inr data ->
  contentOf data = inl e ->
  exists n, 2 <= n <= 3 /\
    fst (groqResponse configured aiModel endpoint) = eventsUpTo n.
Proof.
  intros Hkey H1 Hok Hj Hc.
  destruct (groqResponse_events configured aiModel endpoint)
    as [[_ K] | [n [Hn E]]]; [congruence|].
  exists n. split; [|exact E].
  assert (n <> 1); [|lia]. intros ->. revert E.
  unfold groqResponse. rewrite Hkey.
  change (retryLoop aiModel endpoint MAX_RETRIES 1)
    with (retryLoop aiModel endpoint 3 1). cbn [retryLoop].
  assert (A1 : attemptOnce aiModel endpoint 1
               = ([Fetch 1; Wait (RETRY_DELAY * 1)], Continue)).
  { unfold attemptOnce, onResponse, onError.
    rewrite H1, Hok, Hj, Hc, (contentOf_error _ Hc). reflexivity. }
  rewrite A1.
  match goal with
  | |- fst (let (_, _) := ?x in _) = _ -> _ => destruct x as [ev o]
  end.
  intros E. simpl in E. discriminate E.
Qed.

Lemma X4_malformed_success_is_retried_witness :
  exists n, 2 <= n <= 3 /\
    fst (groqResponse (Some (lit "key")) (lit "llama3-8b-8192")
           (fun _ => emptyBody)) = eventsUpTo n.
Proof.
  apply (@X4_malformed_success_is_retried (Some (lit "key"))
           (lit "llama3-8b-8192") (fun _ => emptyBody)
           (mkResponse 200 (lit "{}") (inr (JObject []))) (JObject [])
           propertyTypeError eq_refl eq_refl eq_refl eq_refl eq_refl).
Defined.

(** X5.  A success on the first attempt is returned at once: one
    attempt, no delay, and the model name that was passed in beside the
    content. *)
Theorem X5_first_success_returns_at_once (configured : option jsstring)
  (aiModel : jsstring) (endpoint : nat -> FetchOutcome)
  (content : option JValue) :
  keyMissing (groqApiKey configured) = false ->
  succeeds (endpoint 1) content ->
  groqResponse configured aiModel endpoint
  = ([Fetch 1], Returned aiModel content).
Proof.
  intros Hkey [r [data [H1 [Hok [Hj Hc]]]]].
  unfold groqResponse. rewrite Hkey.
  change (retryLoop aiModel endpoint MAX_RETRIES 1)
    with (retryLoop aiModel endpoint 3 1). cbn [retryLoop].
  rewrite (@attemptOnce_success aiModel endpoint _ _ H1 _ _ Hok Hj Hc).
  reflexivity.
Qed.

Lemma X5_first_success_returns_at_once_witness :
  groqResponse (Some (lit "key")) (lit "llama3-8b-8192")
    (fun _ => Resolves (mkResponse 200 [] (inr completionHi)))
  = ([Fetch 1], Returned (lit "llama3-8b-8192") (Some (JString (lit "hi")))).
Proof.
  apply (@X5_first_success_returns_at_once (Some (lit "key"))
           (lit "llama3-8b-8192")
           (fun _ => Resolves (mkResponse 200 [] (inr completionHi)))
           _ eq_refl).
  exists (mkResponse 200 [] (inr completionHi)), completionHi. repeat split.
Defined.

(** X6.  A status that is neither a success nor 503, on the first
    attempt: when the body of the response does not hold the word
    [fetch], the call ends there, with one attempt, no delay, and an
    error whose message is made of the status and the body; when the
    body holds that word, the client waits and makes a second attempt. *)
Theorem X6_other_status_and_the_body (configured : option jsstring)
  (aiModel : jsstring) (endpoint : nat -> FetchOutcome) (r : Response) :
  keyMissing (groqApiKey configured) = false ->
  endpoint 1 = Resolves r -> ok r = false -> status r <> 503%Z ->
  (includes (lit "fetch") (text r) = false ->
   groqResponse configured aiModel endpoint
   = ([Fetch 1],
      Thrown (newError (lit "Groq API error: " ++ ofZ (status r)
                        ++ lit " - " ++ text r)))) /\
  (includes (lit "fetch") (text r) = true ->
   exists n, 2 <= n <= 3 /\
     fst (groqResponse configured aiModel endpoint) = eventsUpTo n).
Proof.
  intros Hkey H1 Hok Hs.
  destruct (groqResponse_other_status_body configured aiModel endpoint
              Hkey H1 Hok Hs) as [A B].
  split; [exact A|]. intros Hb. destruct (B Hb) as [ev [o E]].
  destruct (groqResponse_events configured aiModel endpoint)
    as [[_ K] | [n [Hn En]]]; [congruence|].
  exists n. split; [|exact En].
  assert (n <> 1); [|lia]. intros ->. rewrite E in En. discriminate En.
Qed.

Lemma X6_other_status_and_the_body_witness :
  groqResponse (Some (lit "key")) (lit "llama3-8b-8192")
    (fun _ => unauthorized)
  = ([Fetch 1],
     Thrown (newError (lit "Groq API error: 401 - Invalid API Key"))).
Proof.
  apply (proj1 (@X6_other_status_and_the_body (Some (lit "key"))
                  (lit "llama3-8b-8192") (fun _ => unauthorized)
                  (mkResponse 401 (lit "Invalid API Key") (inr JNull))
                  eq_refl eq_refl eq_refl ltac:(discriminate))).
  reflexivity.
Defined.

(** ** The home screen *)

(** X7.  The submitting screen reaches the network only for a name that
    is not blank and a key that is not missing, and then with the
    events of one call of the client for the fixed model; and the
    person it passes on to the news screen is the name as trimmed,
    never an empty one, together with the content the client returned. *)
Theorem X7_submit_guards (configured : option jsstring)
  (personName : jsstring) (endpoint : nat -> FetchOutcome) :
  (fst (handleSubmit configured personName endpoint) <> [] ->
   trim personName <> [] /\ keyMissing (groqApiKey configured) = false /\
   fst (handleSubmit configured personName endpoint)
   = fst (groqResponse configured (lit "llama3-8b-8192") endpoint)) /\
  (forall person aiResponse,
     snd (handleSubmit configured personName endpoint)
     = Pushed person aiResponse ->
     person = trim personName /\ person <> [] /\
     snd (groqResponse configured (lit "llama3-8b-8192") endpoint)
     = Returned (lit "llama3-8b-8192") aiResponse).
Proof.
  unfold handleSubmit.
  destruct (trim personName) as [|c t] eqn:T; cbn [truthy negb].
  { split; [intros H; exfalso; apply H; reflexivity | discriminate]. }
  destruct (keyMissing (groqApiKey configured)) eqn:K.
  { split; [intros H; exfalso; apply H; reflexivity | discriminate]. }
  assert (M : forall m content,
             snd (groqResponse configured (lit "llama3-8b-8192") endpoint)
             = Returned m content -> m = lit "llama3-8b-8192").
  { intros m content. unfold groqResponse. rewrite K.
    change (retryLoop (lit "llama3-8b-8192") endpoint MAX_RETRIES 1)
      with (retryLoop (lit "llama3-8b-8192") endpoint 3 1).
    assert (A : forall k ev m' c',
               attemptOnce (lit "llama3-8b-8192") endpoint k
               = (ev, Return m' c') -> m' = lit "llama3-8b-8192").
    { intros k ev m' c'. unfold attemptOnce, onResponse, onError.
      destruct (endpoint k) as [e|r].
      - destruct (_ && _); discriminate.
      - destruct (negb (ok r)).
        + destruct (status r =? 503)%Z; [destruct (k <? MAX_RETRIES)|];
            cbn [andb isTypeError apiError unavailableError newError orb message];
            try discriminate;
            repeat match goal with
                   | |- context [if ?b then _ else _] => destruct b
                   end; discriminate.
        + destruct (json r) as [e|data].
          * destruct (_ && _); discriminate.
          * destruct (contentOf data) as [e|content'].
            -- destruct (_ && _); discriminate.
            -- intros H; injection H as _ <- _. reflexivity. }
    cbn [retryLoop].
    destruct (attemptOnce _ endpoint 1) as [ev1 [|m1 c1|e1]] eqn:E1.
    - destruct (attemptOnce _ endpoint 2) as [ev2 [|m2 c2|e2]] eqn:E2.
      + destruct (attemptOnce _ endpoint 3) as [ev3 [|m3 c3|e3]] eqn:E3;
          cbn [snd]; try discriminate.
        intros H; injection H as <- _. exact (A _ _ _ _ E3).
      + cbn [snd]. intros H; injection H as <- _. exact (A _ _ _ _ E2).
      + cbn [snd]. discriminate.
    - cbn [snd]. intros H; injection H as <- _. exact (A _ _ _ _ E1).
    - cbn [snd]. discriminate. }
  destruct (groqResponse configured (lit "llama3-8b-8192") endpoint)
    as [ev [m content|e|]] eqn:G; cbn [fst snd] in *.
  - split; [intros _; repeat split; discriminate|].
    intros person aiResponse H; injection H as <- <-.
    rewrite (M m content eq_refl). repeat split. discriminate.
  - split; [intros _; repeat split; discriminate | discriminate].
  - split; [intros _; repeat split; discriminate | discriminate].
Qed.

Lemma X7_submit_guards_witness :
  lit "Ada" = trim (lit "  Ada ") /\ lit "Ada" <> [] /\
  snd (groqResponse (Some (lit "key")) (lit "llama3-8b-8192") recovers)
  = Returned (lit "llama3-8b-8192") (Some (JString (lit "hi"))).
Proof.
  apply (proj2 (X7_submit_guards (Some (lit "key")) (lit "  Ada ") recovers)
           (lit "Ada") (Some (JString (lit "hi")))).
  reflexivity.
Defined.

Lemma includes_app_l (p a s : jsstring) :
  includes p a = true -> includes p (a ++ s) = true.
Proof.
  intros H. apply includes_true_iff in H as [b [c ->]].
  apply includes_true_iff. exists b, (c ++ s).
  rewrite <- !app_assoc. reflexivity.
Qed.

(** The text of an integer is made of digits and a minus sign. *)
Lemma ofZ_chars (z : Z) :
  Forall (fun c => isDigit c = true \/ c = 45%N) (ofZ z).
Proof.
  assert (Hu : forall d, Forall (fun c => isDigit c = true \/ c = 45%N)
                           (lit (NilEmpty.string_of_uint d))).
  { induction d; cbn [NilEmpty.string_of_uint lit]; constructor;
      try assumption; left; reflexivity. }
  unfold ofZ. destruct (Z.to_int z) as [d|d]; cbn [NilEmpty.string_of_int lit].
  - apply Hu.
  - constructor; [right; reflexivity | apply Hu].
Qed.

Lemma forallb_neq (c0 : N) (s : jsstring) :
  forallb (fun c => negb (N.eqb c c0)) s = true ->
  Forall (fun c => c <> c0) s.
Proof.
  intros H. apply Forall_forall. intros c Hc.
  rewrite forallb_forall in H. specialize (H c Hc).
  apply negb_true_iff, N.eqb_neq in H. exact H.
Qed.

Lemma unavailableError_banner (statusCode : Z) (errorText : jsstring) :
  unavailableBanner (message (unavailableError statusCode errorText)) = true.
Proof.
  unfold unavailableBanner, unavailableError, newError. cbn [message].
  apply includes_app_l. vm_compute. reflexivity.
Qed.

(** X8.  The banner of the home screen is the one of an unavailable
    service for the error of a 503 on the last attempt, whatever the
    body; for the error of any other status it is that banner exactly
    when the body of the response holds the words it looks for, and the
    banner that asks for the configuration otherwise; and a submission
    with a name and without a key makes no request and sets the
    screen's own message, which is under the banner that asks for the
    configuration. *)
Theorem X8_error_banner (statusCode : Z) (errorText : jsstring)
  (configured : option jsstring) (personName : jsstring)
  (endpoint : nat -> FetchOutcome) :
  unavailableBanner (message (unavailableError statusCode errorText)) = true /\
  unavailableBanner (message (apiError statusCode errorText))
  = unavailableBanner errorText /\
  (trim personName <> [] -> keyMissing (groqApiKey configured) = true ->
   exists msg,
     msg = lit "GROQ_API_KEY is not configured. Please check your .env file and restart the development server." /\
     handleSubmit configured personName endpoint = ([], ErrorSet msg) /\
     unavailableBanner msg = false).
Proof.
  split; [apply unavailableError_banner|].
  split.
  - unfold unavailableBanner, apiError, newError. cbn [message].
    rewrite !app_assoc.
    change (lit "temporarily unavailable")
      with (116%N :: lit "emporarily unavailable").
    apply includes_after.
    apply Forall_app. split; [apply Forall_app; split|].
    + apply forallb_neq. vm_compute. reflexivity.
    + eapply Forall_impl; [|apply ofZ_chars].
      intros c [Hd | ->]; [|discriminate]. intros ->. discriminate Hd.
    + apply forallb_neq. vm_compute. reflexivity.
  - intros Hn Hkey. eexists. split; [reflexivity|]. split.
    + unfold handleSubmit. rewrite (truthy_nonempty Hn), Hkey. reflexivity.
    + vm_compute. reflexivity.
Qed.

Lemma X8_error_banner_witness :
  exists msg,
    msg = lit "GROQ_API_KEY is not configured. Please check your .env file and restart the development server." /\
    handleSubmit None (lit "Ada") (fun _ => busy) = ([], ErrorSet msg) /\
    unavailableBanner msg = false.
Proof.
  apply (proj2 (proj2 (X8_error_banner 503 [] None (lit "Ada")
                         (fun _ => busy)))).
  - discriminate.
  - reflexivity.
Defined.

(** X9.  When the endpoint answers all three attempts with status 503,
    a submission with a name and a key ends with the error of the
    client on the screen, under the banner of an unavailable service. *)
Theorem X9_unavailable_after_three_503 (configured : option jsstring)
  (personName : jsstring) (endpoint : nat -> FetchOutcome)
  (r1 r2 r3 : Response) :
  trim personName <> [] -> keyMissing (groqApiKey configured) = false ->
  unavailable (endpoint 1) r1 -> unavailable (endpoint 2) r2 ->
  unavailable (endpoint 3) r3 ->
  handleSubmit configured personName endpoint
  = (eventsUpTo 3, ErrorSet (message (unavailableError 503 (text r3)))) /\
  unavailableBanner (message (unavailableError 503 (text r3))) = true.
Proof.
  intros Hn Hkey [H1 S1] [H2 S2] [H3 S3].
  split; [|apply unavailableError_banner].
  unfold handleSubmit. rewrite (truthy_nonempty Hn), Hkey. cbn [negb].
  unfold groqResponse. rewrite Hkey.
  change (retryLoop (lit "llama3-8b-8192") endpoint MAX_RETRIES 1)
    with (retryLoop (lit "llama3-8b-8192") endpoint 3 1). cbn [retryLoop].
  rewrite (@attemptOnce_503_retry _ endpoint _ _ H1 S1)
    by (unfold MAX_RETRIES; lia).
  rewrite (@attemptOnce_503_retry _ endpoint _ _ H2 S2)
    by (unfold MAX_RETRIES; lia).
  rewrite (@attemptOnce_503_last _ endpoint _ _ H3 S3)
    by (unfold MAX_RETRIES; lia).
  reflexivity.
Qed.

Lemma X9_unavailable_after_three_503_witness :
  handleSubmit (Some (lit "key")) (lit "Ada") (fun _ => busy)
  = (eventsUpTo 3, ErrorSet (message (unavailableError 503 (lit "busy")))) /\
  unavailableBanner (message (unavailableError 503 (lit "busy"))) = true.
Proof.
  apply (@X9_unavailable_after_three_503 (Some (lit "key")) (lit "Ada")
           (fun _ => busy) (mkResponse 503 (lit "busy") (inr JNull))
           (mkResponse 503 (lit "busy") (inr JNull))
           (mkResponse 503 (lit "busy") (inr JNull))
           ltac:(discriminate) eq_refl
           (conj eq_refl eq_refl) (conj eq_refl eq_refl) (conj eq_refl eq_refl)).
Defined.

(** ** The sanitizer and the parser, once more *)

Lemma cleanAiText_Forall (P : N -> Prop) (raw : jsstring) :
  Forall P raw -> Forall P (cleanAiText raw).
Proof.
  intros H. unfold cleanAiText, removeControl, stripFences.
  apply Forall_forall. intros c Hc. apply filter_In in Hc as [Hc _].
  revert c Hc. apply Forall_forall.
  apply trim_Forall, removeAll_Forall, removeAll_Forall, trim_Forall, H.
Qed.

(** X10.  The sanitizer only removes code units: what holds of every
    code unit of the raw text holds of every one of the sanitized text.
    The sanitized text holds no control character; the text holds no
    fence marker after the fences are stripped, and the sanitized text
    holds none when the raw text is free of control characters. *)
Theorem X10_sanitized_text (raw : jsstring) :
  (forall P : N -> Prop, Forall P raw -> Forall P (cleanAiText raw)) /\
  Forall (fun c => isControl c = false) (cleanAiText raw) /\
  includes FENCE (stripFences (trim raw)) = false /\
  (Forall (fun c => isControl c = false) raw ->
   includes FENCE (cleanAiText raw) = false).
Proof.
  split; [intros P; apply cleanAiText_Forall|].
  split; [apply cleanAiText_no_control|].
  split; [apply stripFences_no_fence | apply cleanAiText_no_fence].
Qed.

Lemma X10_sanitized_text_witness :
  includes FENCE (cleanAiText fencedOneLine) = false.
Proof.
  apply (proj2 (proj2 (proj2 (X10_sanitized_text fencedOneLine)))).
  apply Forall_forall. intros c Hc.
  repeat (destruct Hc as [<- | Hc]; [reflexivity|]). contradiction.
Defined.

Lemma textBefore_absent (c0 : N) (sep s : jsstring) :
  Forall (fun c => c <> c0) s -> textBefore (c0 :: sep) s = s.
Proof.
  induction 1 as [|c s Hc Hs IH]; [reflexivity|].
  cbn [textBefore startsWith]. apply N.eqb_neq in Hc.
  rewrite N.eqb_sym, Hc. cbn [andb]. rewrite IH. reflexivity.
Qed.

Lemma cleanAiText_no_LF (raw : jsstring) :
  Forall (fun c => c <> LF) (cleanAiText raw).
Proof.
  eapply Forall_impl; [|apply cleanAiText_no_control].
  intros c Hc ->. discriminate Hc.
Qed.

(** On the synthetic record the callback returns the article of the
    record that carries the text as its body. *)
Lemma mapAiRecord_synthetic (numberIsZero : jsstring -> bool)
  (selectedPerson text : jsstring) (idx : nat) :
  mapAiRecord numberIsZero selectedPerson (syntheticRecord text) idx
  = Some (objectOf (mapAiArticle selectedPerson (generated text) idx)).
Proof.
  unfold mapAiRecord, syntheticRecord, mapAiArticle, objectOf, generated.
  cbn [getMember Generated_article Timestamp Source_URL id title
       originalTitle summary originalSummary imageUrl publishedAt
       originalUrl source aiGenerated Input_person_name option_map].
  change (lookup (lit "Generated article")
            [(lit "Generated article", JString text)])
    with (Some (JString text)).
  change (lookup (lit "Timestamp") [(lit "Generated article", JString text)])
    with (@None JValue).
  change (lookup (lit "Source URL") [(lit "Generated article", JString text)])
    with (@None JValue).
  destruct text as [|c t]; reflexivity.
Qed.

(** On an object whose three fields that the callback reads are strings
    or absent, the callback returns the article that [mapAiArticle]
    gives for the record of those fields. *)
Lemma mapAiRecord_of_strings (numberIsZero : jsstring -> bool)
  (selectedPerson : jsstring) (m : list (jsstring * JValue))
  (g t u : option jsstring) (idx : nat) :
  lookup (lit "Generated article") m = option_map JString g ->
  lookup (lit "Timestamp") m = option_map JString t ->
  lookup (lit "Source URL") m = option_map JString u ->
  mapAiRecord numberIsZero selectedPerson (JObject m) idx
  = Some (objectOf
            (mapAiArticle selectedPerson
               (mkNewsArticle None None None None None None None None None
                  None g None t u) idx)).
Proof.
  intros Hg Ht Hu. unfold mapAiRecord. cbn [getMember].
  rewrite Hg, Ht, Hu.
  destruct g as [[|cg g]|], t as [[|ct t]|], u as [[|cu u]|]; reflexivity.
Qed.

(** X11.  A response that is not empty and whose sanitized text starts
    with neither a bracket nor a brace becomes exactly one article,
    whose generated article is the whole sanitized text, with the id 1
    and the first image.  That text holds no newline, so the summary is
    the text itself when it has at most 200 code units, its first 200
    and an ellipsis when it has more, and the ellipsis alone when it is
    empty. *)
Theorem X11_prose_becomes_one_article (numberIsZero : jsstring -> bool)
  (selectedPerson raw : jsstring) :
  raw <> [] ->
  startsWith (lit "[") (cleanAiText raw) = false ->
  startsWith (lit "{") (cleanAiText raw) = false ->
  let article := mapAiArticle selectedPerson (generated (cleanAiText raw)) 0 in
  aiResponseEffect numberIsZero (Some raw) selectedPerson
  = SetArticles [objectOf article] /\
  Generated_article article = Some (cleanAiText raw) /\
  id article = Some (lit "1") /\
  imageUrl article = nth_error newsImages 0 /\
  summary article
  = Some (match cleanAiText raw with
          | [] => lit "..."
          | _ :: _ =>
              if 200 <? List.length (cleanAiText raw)
              then firstn 200 (cleanAiText raw) ++ lit "..."
              else cleanAiText raw
          end).
Proof.
  intros Hr B C article. subst article.
  split; [|split; [|split; [|split]]].
  - destruct raw as [|c0 r0]; [contradiction|].
    unfold aiResponseEffect, parseAiResponse. rewrite B, C.
    cbn [orb mapRecords]. rewrite mapAiRecord_synthetic. reflexivity.
  - unfold mapAiArticle. cbn [Generated_article generated].
    rewrite orElse_Some. reflexivity.
  - reflexivity.
  - reflexivity.
  - unfold mapAiArticle. cbn [summary Generated_article generated].
    rewrite orElse_Some.
    pose proof (cleanAiText_no_LF raw) as Hlf.
    destruct (cleanAiText raw) as [|c t] eqn:E; [reflexivity|].
    rewrite deriveSummary_spec by discriminate. cbv zeta.
    rewrite firstParagraph_fallback, (textBefore_absent [LF] Hlf).
    destruct (200 <? _).
    + rewrite orStr_app by discriminate. reflexivity.
    + reflexivity.
Qed.

Lemma X11_prose_becomes_one_article_witness :
  aiResponseEffect decimalIsZero (Some (lit " No news today ")) (lit "Ada")
  = SetArticles
      [objectOf (mapAiArticle (lit "Ada") (generated (lit "No news today")) 0)].
Proof.
  apply (proj1 (@X11_prose_becomes_one_article decimalIsZero (lit "Ada")
                  (lit " No news today ") ltac:(discriminate)
                  eq_refl eq_refl)).
Defined.

(** X12.  In the derivation of the summary the fallback to the text
    before the first single newline never applies: whenever the text
    before the first double newline is empty, the text before the
    first single newline is empty as well. *)
Theorem X12_single_newline_fallback_is_idle (generatedContent : jsstring) :
  orStr (at0 (split [LF; LF] generatedContent))
        (at0 (split [LF] generatedContent))
  = at0 (split [LF; LF] generatedContent) /\
  (at0 (split [LF; LF] generatedContent) = [] ->
   at0 (split [LF] generatedContent) = []).
Proof.
  rewrite !split_at0 by discriminate.
  pose proof (firstParagraph_fallback generatedContent) as H.
  split; [exact H|]. intros E. rewrite E in H. exact H.
Qed.

Lemma X12_single_newline_fallback_is_idle_witness :
  at0 (split [LF] blankLineFirst) = [].
Proof.
  apply (proj2 (X12_single_newline_fallback_is_idle blankLineFirst)).
  reflexivity.
Defined.

Lemma length_firstn_le {A : Type} (n : nat) (l : list A) :
  List.length (firstn n l) <= n.
Proof. rewrite length_firstn. lia. Qed.

Lemma deriveSummary_length (body : jsstring) :
  List.length (deriveSummary body) <= 203.
Proof.
  unfold deriveSummary. destruct (truthy body); [|simpl; lia].
  cbv zeta. destruct (200 <? _) eqn:E.
  - rewrite length_app. unfold substring0.
    pose proof (length_firstn_le 200
      (orStr (at0 (split [LF; LF] body)) (at0 (split [LF] body)))).
    change (List.length ELLIPSIS) with 3. lia.
  - apply Nat.ltb_ge in E. lia.
Qed.

Lemma deriveTitle_length (body : jsstring) :
  List.length (deriveTitle body) <= 81.
Proof.
  unfold deriveTitle. destruct (truthy body); [|simpl; lia].
  cbv zeta. destruct (80 <? _) eqn:E.
  - rewrite length_app. unfold substring0.
    pose proof (length_firstn_le 60 body).
    change (List.length ELLIPSIS) with 3. lia.
  - apply Nat.ltb_ge in E. rewrite length_app.
    change (List.length (lit ".")) with 1. lia.
Qed.

(** X13.  Every article of the generated path has a title and a summary
    that are not empty; the summary has at most 203 code units, and the
    title at most 81 when the record has a body that is not empty. *)
Theorem X13_title_and_summary_bounds (selectedPerson : jsstring)
  (article : NewsArticle) (idx : nat) :
  exists t s,
    title (mapAiArticle selectedPerson article idx) = Some t /\
    summary (mapAiArticle selectedPerson article idx) = Some s /\
    t <> [] /\ s <> [] /\ List.length s <= 203 /\
    (orElse (Generated_article article) [] <> [] -> List.length t <= 81).
Proof.
  unfold mapAiArticle. cbn [title summary].
  set (body := orElse (Generated_article article) []).
  eexists. eexists. split; [reflexivity|]. split; [reflexivity|].
  split; [|split; [|split]].
  - destruct body as [|c b] eqn:E.
    + cbn. destruct selectedPerson; discriminate.
    + pose proof (@deriveTitle_nonempty (c :: b) ltac:(discriminate)) as Hn.
      destruct (deriveTitle (c :: b)); [contradiction | discriminate].
  - destruct (deriveSummary body) as [|c s] eqn:E; cbn [orStr].
    + intros H. apply app_eq_nil in H as [_ H]. discriminate.
    + discriminate.
  - pose proof (deriveSummary_length body) as Hs.
    destruct (deriveSummary body) as [|c s] eqn:E; cbn [orStr].
    + rewrite length_app. unfold substring0.
      pose proof (length_firstn_le 200 body).
      change (List.length ELLIPSIS) with 3. lia.
    + exact Hs.
  - intros Hb. pose proof (deriveTitle_nonempty Hb) as Hn.
    pose proof (deriveTitle_length body) as Hl.
    destruct (deriveTitle body); [contradiction | exact Hl].
Qed.

Lemma X13_title_and_summary_bounds_witness :
  exists t s,
    title (mapAiArticle (lit "Ada") (generated (lit "Hello.")) 0) = Some t /\
    summary (mapAiArticle (lit "Ada") (generated (lit "Hello.")) 0) = Some s /\
    t <> [] /\ s <> [] /\ List.length s <= 203 /\ List.length t <= 81.
Proof.
  destruct (X13_title_and_summary_bounds (lit "Ada") (generated (lit "Hello.")) 0)
    as [t [s [Ht [Hs [Nt [Ns [Ls Lt]]]]]]].
  exists t, s. repeat split; try assumption.
  apply Lt. discriminate.
Defined.

(** ** The mappings *)

Lemma lit_inj (s t : string) : lit s = lit t -> s = t.
Proof.
  revert t; induction s as [|a s IH]; intros [|b t]; simpl;
    try discriminate; [reflexivity|].
  intros H. injection H as Ha Hs. f_equal; [|apply IH, Hs].
  rewrite <- (ascii_N_embedding a), <- (ascii_N_embedding b), Ha.
  reflexivity.
Qed.

(** [String(n)] tells the numbers apart. *)
Lemma ofNat_inj (n m : nat) : ofNat n = ofNat m -> n = m.
Proof.
  unfold ofNat. intros H. apply lit_inj in H.
  assert (E : Some (Nat.to_uint n) = Some (Nat.to_uint m)).
  { rewrite <- !NilEmpty.usu, H. reflexivity. }
  injection E as E.
  rewrite <- (DecimalNat.Unsigned.of_to n), <- (DecimalNat.Unsigned.of_to m), E.
  reflexivity.
Qed.

Section Ids.

Variables A : Type.
Variable f : A -> nat -> NewsArticle.
Hypothesis f_id : forall x i, id (f x i) = Some (ofNat (i + 1)).

Lemma mapi_from_length (k : nat) (l : list A) :
  List.length (mapi_from f k l) = List.length l.
Proof.
  revert k; induction l as [|x l IH]; intros k; simpl; [|rewrite IH];
    reflexivity.
Qed.

Lemma mapi_from_ids_In (k : nat) (l : list A) (a : option jsstring) :
  In a (map id (mapi_from f k l)) ->
  exists i, k <= i /\ a = Some (ofNat (i + 1)).
Proof.
  revert k; induction l as [|x l IH]; intros k; simpl; [contradiction|].
  intros [H | H].
  - exists k. split; [lia|]. rewrite <- H. apply f_id.
  - destruct (IH _ H) as [i [Hi Ha]]. exists i. split; [lia | exact Ha].
Qed.

Lemma mapi_from_ids_NoDup (k : nat) (l : list A) :
  NoDup (map id (mapi_from f k l)).
Proof.
  revert k; induction l as [|x l IH]; intros k; simpl; constructor.
  - intros H. apply mapi_from_ids_In in H as [i [Hi E]].
    rewrite f_id in E. injection E as E. apply ofNat_inj in E. lia.
  - apply IH.
Qed.

Lemma mapi_ids (l : list A) :
  List.length (mapi f l) = List.length l /\
  (forall i a, nth_error (mapi f l) i = Some a -> id a = Some (ofNat (i + 1))) /\
  NoDup (map id (mapi f l)).
Proof.
  unfold mapi. split; [apply mapi_from_length|].
  split; [|apply mapi_from_ids_NoDup].
  intros i a. rewrite mapi_from_nth_error.
  destruct (nth_error l i); simpl; [|discriminate].
  intros H; injection H as <-. apply f_id.
Qed.

End Ids.

(** X14.  Both mappings keep the number of records and number the
    articles from 1 in their order: the article at position [i] has the
    id [String(i + 1)], so no two articles of a list have the same id. *)
Theorem X14_ids_are_positions (selectedPerson : jsstring)
  (aiArticles : list NewsArticle) (apiArticles : list ApiArticle) :
  (List.length (mapAiArticles selectedPerson aiArticles)
   = List.length aiArticles /\
   (forall i a, nth_error (mapAiArticles selectedPerson aiArticles) i = Some a ->
                id a = Some (ofNat (i + 1))) /\
   NoDup (map id (mapAiArticles selectedPerson aiArticles))) /\
  (List.length (mapApiArticles apiArticles) = List.length apiArticles /\
   (forall i a, nth_error (mapApiArticles apiArticles) i = Some a ->
                id a = Some (ofNat (i + 1))) /\
   NoDup (map id (mapApiArticles apiArticles))).
Proof.
  split; apply mapi_ids; reflexivity.
Qed.

Lemma X14_ids_are_positions_witness :
  id (mapApiArticleToNewsArticle headline 1) = Some (lit "2").
Proof.
  apply (proj1 (proj2 (proj2 (X14_ids_are_positions (lit "Ada") []
                                [untitled; headline]))) 1).
  reflexivity.
Defined.

(** X15.  An article of the vendor path always has an image that is
    not the empty string: the thumbnail of the record when it has one
    that is not empty, and otherwise the placeholder, which is the
    last image of the rotation of the generated path.  It is never
    marked as generated. *)
Theorem X15_vendor_image (apiArticle : ApiArticle) (idx : nat) :
  nonEmpty (imageUrl (mapApiArticleToNewsArticle apiArticle idx)) /\
  (nonEmpty (api_thumbnail_url apiArticle) ->
   imageUrl (mapApiArticleToNewsArticle apiArticle idx)
   = api_thumbnail_url apiArticle) /\
  (~ nonEmpty (api_thumbnail_url apiArticle) ->
   imageUrl (mapApiArticleToNewsArticle apiArticle idx)
   = Some placeholderImage) /\
  nth_error newsImages 4 = Some placeholderImage /\
  aiGenerated (mapApiArticleToNewsArticle apiArticle idx) = Some false.
Proof.
  assert (Hp : nonEmpty (Some placeholderImage)).
  { unfold nonEmpty, placeholderImage. cbn [lit]. eauto. }
  unfold mapApiArticleToNewsArticle. cbn [imageUrl aiGenerated].
  fold placeholderImage.
  destruct (api_thumbnail_url apiArticle) as [[|c u]|]; cbn [orElse].
  - split; [exact Hp|]. split; [intros [c [s H]]; discriminate H|].
    repeat split.
  - split; [exists c, u; reflexivity|]. split; [reflexivity|].
    split; [|split; reflexivity].
    intros H. exfalso. apply H. exists c, u. reflexivity.
  - split; [exact Hp|]. split; [intros [c [s H]]; discriminate H|].
    repeat split.
Qed.

Lemma X15_vendor_image_witness :
  imageUrl (mapApiArticleToNewsArticle headline 0)
  = Some (lit "https://example.org/chip.jpg") /\
  imageUrl (mapApiArticleToNewsArticle untitled 0) = Some placeholderImage.
Proof.
  split.
  - apply (proj1 (proj2 (X15_vendor_image headline 0))).
    unfold nonEmpty. simpl. eauto.
  - apply (proj1 (proj2 (proj2 (X15_vendor_image untitled 0)))).
    intros [c [s H]]. discriminate H.
Defined.

Lemma mapAiArticle_title (selectedPerson : jsstring) (article : NewsArticle)
  (idx : nat) :
  exists c t, title (mapAiArticle selectedPerson article idx) = Some (c :: t).
Proof.
  unfold mapAiArticle. cbn [title].
  destruct (orElse (Generated_article article) []) as [|c b] eqn:E.
  - cbn. destruct selectedPerson as [|d p]; simpl; eauto.
  - pose proof (@deriveTitle_nonempty (c :: b) ltac:(discriminate)) as Hn.
    destruct (deriveTitle (c :: b)) as [|d t]; [contradiction|].
    cbn. eauto.
Qed.

(** X16.  What the screens show as the title.  For an article of the
    generated path the card and the article screen both show its
    title.  For an article of the vendor path the card shows the
    vendor's title, which may be empty, and the article screen shows
    the vendor's title when it is not empty and [Untitled Article]
    otherwise. *)
Theorem X16_titles_on_screen (selectedPerson : jsstring)
  (article : NewsArticle) (apiArticle : ApiArticle) (idx : nat) :
  (cardTitle (mapAiArticle selectedPerson article idx)
   = title (mapAiArticle selectedPerson article idx) /\
   Some (displayTitle (handleArticlePress selectedPerson
                         (mapAiArticle selectedPerson article idx)))
   = title (mapAiArticle selectedPerson article idx)) /\
  (cardTitle (mapApiArticleToNewsArticle apiArticle idx)
   = Some (orElse (api_title apiArticle) []) /\
   displayTitle (handleArticlePress selectedPerson
                   (mapApiArticleToNewsArticle apiArticle idx))
   = orElse (api_title apiArticle) (lit "Untitled Article")).
Proof.
  split.
  - destruct (mapAiArticle_title selectedPerson article idx) as [c [t Ht]].
    unfold cardTitle, displayTitle, handleArticlePress.
    cbn [p_title p_originalTitle]. rewrite Ht. split; reflexivity.
  - unfold cardTitle, displayTitle, handleArticlePress,
      mapApiArticleToNewsArticle.
    cbn [p_title p_originalTitle title originalTitle orOpt].
    destruct (api_title apiArticle) as [[|c t]|]; split; reflexivity.
Qed.

(** ** The renderers, for the names they are written for *)

Lemma not_a_proto_member (person : jsstring) :
  forallb (fun p => negb (JsString.eqb (protoName p) person)) protoMembers
  = true ->
  forall p, protoName p <> person.
Proof.
  intros H p E. rewrite forallb_forall in H.
  assert (Hin : In p protoMembers) by (destruct p; simpl; tauto).
  specialize (H p Hin). apply negb_true_iff in H.
  apply eqb_true_iff in E. congruence.
Qed.

(** X17.  For a name that is not the name of a member of
    [Object.prototype], the perspective renderer gives a text: that of
    the template the table holds under exactly that name, or that of
    the default template when the table holds no such name; and the
    text holds the title and the summary as they are. *)
Theorem X17_renderer_interpolates (person title summary : jsstring) :
  (forall p, protoName p <> person) ->
  exists template,
    generateFullAIArticle person title summary = Text (template title summary) /\
    (In (person, template) articleTemplates \/
     ((forall name f, In (name, f) articleTemplates -> name <> person) /\
      template = defaultTemplate)) /\
    occursIn title (template title summary) /\
    occursIn summary (template title summary).
Proof.
  intros Hproto.
  destruct (generateFullAIArticle_spec title summary Hproto)
    as [template [E [Ht [Rt Rs]]]].
  exists template. cbn [renders] in Rt, Rs.
  apply includes_true_iff in Rt. apply includes_true_iff in Rs.
  repeat split; assumption.
Qed.

Lemma X17_renderer_interpolates_witness :
  exists template,
    generateFullAIArticle (lit "Unknown Person") (lit "T") (lit "S")
    = Text (template (lit "T") (lit "S")) /\
    (In (lit "Unknown Person", template) articleTemplates \/
     ((forall name f, In (name, f) articleTemplates ->
                      name <> lit "Unknown Person") /\
      template = defaultTemplate)) /\
    occursIn (lit "T") (template (lit "T") (lit "S")) /\
    occursIn (lit "S") (template (lit "T") (lit "S")).
Proof.
  apply (@X17_renderer_interpolates (lit "Unknown Person") (lit "T") (lit "S")).
  apply not_a_proto_member. reflexivity.
Defined.

Lemma descriptions_interpolate (name topic d : jsstring) :
  In (name, d) (descriptions topic) -> occursIn topic d.
Proof.
  assert (H : Forall (fun e => occursIn topic (snd e)) (descriptions topic)).
  { unfold descriptions, defaultDescription.
    repeat (constructor; [cbn [snd]; eexists; eexists; reflexivity|]).
    constructor. }
  intros Hin. rewrite Forall_forall in H. exact (H _ Hin).
Qed.

(** X18.  For a name that is not the name of a member of
    [Object.prototype], the description of a podcast episode is a
    text: the one the table holds under exactly that name, or the
    default one when the table holds no such name; and it holds the
    topic as it is. *)
Theorem X18_description_interpolates (person topic : jsstring) :
  (forall p, protoName p <> person) ->
  exists d,
    generateAIDescription person topic = DescriptionText d /\
    (In (person, d) (descriptions topic) \/
     ((forall name d', In (name, d') (descriptions topic) -> name <> person) /\
      d = defaultDescription topic)) /\
    occursIn topic d.
Proof.
  intros Hproto. unfold generateAIDescription.
  destruct (assoc person (descriptions topic)) as [d|] eqn:E.
  - apply assoc_In in E. exists d. split; [reflexivity|].
    split; [left; exact E | exact (descriptions_interpolate E)].
  - rewrite assoc_None.
    + exists (defaultDescription topic). split; [reflexivity|]. split.
      * right. split; [|reflexivity]. intros name d' Hin ->.
        destruct (assoc_of_In _ _ _ Hin) as [w Hw]. congruence.
      * apply (@descriptions_interpolate (lit "Default")).
        unfold descriptions. simpl. tauto.
    + intros k' v Hin. apply in_map_iff in Hin as [p [Hp _]].
      injection Hp as <- _. apply Hproto.
Qed.

Lemma X18_description_interpolates_witness :
  exists d,
    generateAIDescription (lit "Elon Musk") (lit "space") = DescriptionText d /\
    (In (lit "Elon Musk", d) (descriptions (lit "space")) \/
     ((forall name d', In (name, d') (descriptions (lit "space")) ->
                       name <> lit "Elon Musk") /\
      d = defaultDescription (lit "space"))) /\
    occursIn (lit "space") d.
Proof.
  apply (@X18_description_interpolates (lit "Elon Musk") (lit "space")).
  apply not_a_proto_member. reflexivity.
Defined.

(** ** The article screen *)

(** X19.  The article screen never throws on its content and never
    turns a content that is not empty into an empty one.  Without a
    content it shows the empty string; and it shows the content as it
    is whenever the content does not hold the name of the field in
    double quotes, or is not a JSON text. *)
Theorem X19_content_passes_through (numberIsZero : jsstring -> bool)
  (text : jsstring) :
  parseAIContent numberIsZero None = JString [] /\
  parseAIContent numberIsZero (Some []) = JString [] /\
  (text <> [] ->
   truthyValue numberIsZero (parseAIContent numberIsZero (Some text)) = true /\
   (includes quotedField text = false \/ JSON_parse text = None ->
    parseAIContent numberIsZero (Some text) = JString text)).
Proof.
  split; [reflexivity|]. split; [reflexivity|].
  intros Ht. destruct text as [|c t]; [contradiction|].
  cbn [parseAIContent]. split.
  - destruct (includes quotedField (c :: t)); [|reflexivity].
    destruct (JSON_parse (c :: t)) as [parsed|]; [|reflexivity].
    unfold generatedOr.
    destruct parsed as [| b | l | s | [|first rest] | m]; cbn [getMember];
      try reflexivity.
    + destruct first as [| b | l | s | l | m]; cbn [getMember]; try reflexivity.
      destruct (lookup (lit "Generated article") m) as [g|]; [|reflexivity].
      destruct (truthyValue numberIsZero g) eqn:G; [exact G | reflexivity].
    + destruct (lookup (lit "Generated article") m) as [g|]; [|reflexivity].
      destruct (truthyValue numberIsZero g) eqn:G; [exact G | reflexivity].
  - intros [H | H]; rewrite H; [reflexivity|].
    destruct (includes quotedField (c :: t)); reflexivity.
Qed.

Lemma X19_content_passes_through_witness :
  parseAIContent decimalIsZero (Some (lit "Plain text.")) = JString (lit "Plain text.").
Proof.
  apply (proj2 (proj2 (proj2 (X19_content_passes_through decimalIsZero
                                (lit "Plain text."))) ltac:(discriminate))).
  left. reflexivity.
Defined.

(** X20.  When the content holds the name of the field in double quotes
    and is the JSON text of an object, or of an array whose first
    element is an object, the article screen shows the generated
    article of that object when it is truthy, as a string that is not
    empty is. *)
Theorem X20_content_is_extracted (numberIsZero : jsstring -> bool)
  (text : jsstring) (m : list (jsstring * JValue)) (rest : list JValue)
  (g : JValue) :
  includes quotedField text = true ->
  JSON_parse text = Some (JObject m) \/
  JSON_parse text = Some (JArray (JObject m :: rest)) ->
  lookup (lit "Generated article") m = Some g ->
  truthyValue numberIsZero g = true ->
  parseAIContent numberIsZero (Some text) = g.
Proof.
  intros Hi Hp Hl Hg. destruct text as [|c t]; [discriminate Hi|].
  cbn [parseAIContent]. rewrite Hi.
  destruct Hp as [-> | ->]; unfold generatedOr; cbn [getMember];
    rewrite Hl, Hg; reflexivity.
Qed.

Lemma X20_content_is_extracted_witness :
  parseAIContent decimalIsZero (Some oneRecordText) = JString (lit "Full text.").
Proof.
  apply (@X20_content_is_extracted decimalIsZero oneRecordText
           [(lit "Generated article", JString (lit "Full text."))] []
           (JString (lit "Full text.")) eq_refl (or_intror eq_refl)
           eq_refl eq_refl).
Defined.

(** X21.  From the list to the article screen: for an article made of
    a record whose body is not empty and does not hold the name of the
    field in double quotes, the article screen renders, for the person
    of the list, the derived title and the whole body. *)
Theorem X21_list_to_article_screen (numberIsZero : jsstring -> bool)
  (selectedPerson : jsstring) (article : NewsArticle) (idx : nat)
  (body : jsstring) :
  Generated_article article = Some body -> body <> [] ->
  includes quotedField body = false ->
  articleBody numberIsZero
    (handleArticlePress selectedPerson
       (mapAiArticle selectedPerson article idx))
  = Some (generateFullAIArticle selectedPerson (deriveTitle body) body).
Proof.
  intros Hg Hb Hi. unfold articleBody, handleArticlePress, displayTitle.
  cbn [p_person p_summary p_title p_originalTitle].
  unfold mapAiArticle.
  cbn [Generated_article Input_person_name summary title originalTitle].
  rewrite Hg, orElse_Some.
  pose proof (deriveTitle_nonempty Hb) as Hn.
  destruct body as [|c b]; [contradiction|].
  destruct (deriveTitle (c :: b)) as [|d t] eqn:T; [contradiction|].
  cbn [orOpt orStr orElse parseAIContent]. rewrite Hi.
  destruct selectedPerson; reflexivity.
Qed.

Lemma X21_list_to_article_screen_witness :
  articleBody decimalIsZero
    (handleArticlePress (lit "Ada")
       (mapAiArticle (lit "Ada") (generated (lit "Short line. Rest.")) 0))
  = Some (generateFullAIArticle (lit "Ada") (lit "Short line.")
            (lit "Short line. Rest.")).
Proof.
  apply (@X21_list_to_article_screen decimalIsZero (lit "Ada")
           (generated (lit "Short line. Rest.")) 0 (lit "Short line. Rest.")
           eq_refl ltac:(discriminate) eq_refl).
Defined.

(** ** The vendor's news and the empty state *)

(** X22.  [fetchNewsArticles] never throws.  It returns the empty array
    when [fetch] fails and when the body does not decode, and in every
    other case but one: the body decodes to an object that has no
    member named [toString] and has a truthy [data], and then it
    returns that [data], whatever it is and whatever the status of the
    response. *)
Theorem X22_vendor_fetch (Number : Type) (numberText : Number -> jsstring)
  (numberIsZero : jsstring -> bool)
  (net : jsstring -> FetchOutcome) (topic section : jsstring) (limit : Number)
  (country_code lang : jsstring) :
  let url := newsUrl numberText topic section limit country_code lang in
  let result :=
    fetchNewsArticles numberText numberIsZero net topic section limit
      country_code lang in
  (result = JArray [] \/
   exists r m data,
     net url = Resolves r /\ json r = inr (JObject m) /\
     lookup (lit "toString") m = None /\
     lookup (lit "data") m = Some data /\
     truthyValue numberIsZero data = true /\ result = data) /\
  (forall e, net url = Rejects e -> result = JArray []) /\
  (forall r e, net url = Resolves r -> json r = inl e -> result = JArray []) /\
  (forall r m data,
     net url = Resolves r -> json r = inr (JObject m) ->
     lookup (lit "toString") m = None ->
     lookup (lit "data") m = Some data ->
     truthyValue numberIsZero data = true -> result = data).
Proof.
  intros url result. subst result. unfold fetchNewsArticles. fold url.
  split; [|split; [|split]].
  - destruct (net url) as [e|r]; [left; reflexivity|].
    destruct (json r) as [e|res] eqn:J; [left; reflexivity|].
    destruct (stringifies res) eqn:S; [|left; reflexivity].
    destruct res as [| b | l | s | l | m]; cbn [getMember];
      try (left; reflexivity).
    destruct (lookup (lit "data") m) as [data|] eqn:D; [|left; reflexivity].
    destruct (truthyValue numberIsZero data) eqn:T; [|left; reflexivity].
    right. exists r, m, data. cbn [stringifies] in S.
    destruct (lookup (lit "toString") m); [discriminate|].
    repeat split; assumption.
  - intros e ->. reflexivity.
  - intros r e -> ->. reflexivity.
  - intros r m data -> -> Hs Hd Ht. cbn [stringifies getMember].
    rewrite Hs, Hd, Ht. reflexivity.
Qed.

Lemma X22_vendor_fetch_witness :
  fetchNewsArticles safeIntegerText decimalIsZero (fun _ => offline)
    (lit "TECHNOLOGY") newsSection newsLimit (lit "US") (lit "en")
  = JArray [] /\
  fetchNewsArticles safeIntegerText decimalIsZero (fun _ => failingWithData)
    (lit "TECHNOLOGY") newsSection newsLimit (lit "US") (lit "en")
  = JArray [JObject []].
Proof.
  split.
  - apply (proj1 (proj2 (X22_vendor_fetch safeIntegerText decimalIsZero
                           (fun _ => offline)
                           (lit "TECHNOLOGY") newsSection newsLimit (lit "US")
                           (lit "en")))
             (mkJsError true (lit "Network request failed"))).
    reflexivity.
  - apply (proj2 (proj2 (proj2 (X22_vendor_fetch safeIntegerText decimalIsZero
                                  (fun _ => failingWithData)
                                  (lit "TECHNOLOGY") newsSection newsLimit
                                  (lit "US") (lit "en"))))
             (mkResponse 500 []
                (inr (JObject [(lit "data", JArray [JObject []])])))
             [(lit "data", JArray [JObject []])] (JArray [JObject []]));
      reflexivity.
Defined.

(** The request of the news screen asks for ten articles. *)
Example newsUrl_of_the_news_screen :
  newsUrl safeIntegerText (lit "TECHNOLOGY") (lit "S") newsLimit
    (lit "US") (lit "en")
  = lit "https://real-time-news-data.p.rapidapi.com/topic-news-by-section?topic=TECHNOLOGY&section=S&limit=10&country=US&lang=en".
Proof. reflexivity. Qed.

Lemma parseAiResponse_nil (raw : jsstring) :
  raw <> [] ->
  (parseAiResponse (Some raw) = Some [] <->
   startsWith (lit "[") (cleanAiText raw) = true /\
   JSON_parse (cleanAiText raw) = Some (JArray [])).
Proof.
  intros Hr. destruct (parseAiResponse_cases Hr) as [records [E Hcases]].
  rewrite E. split.
  - intros H; injection H as ->.
    destruct Hcases as [[B [elems [P R]]] | [[C [m [P R]]] | [_ R]]];
      try discriminate R.
    subst elems. split; assumption.
  - intros [B P].
    destruct Hcases as [[_ [elems [P' R]]] | [[C [m [P' R]]] | [[[B' _] | P'] R]]];
      try congruence.
Qed.

Lemma mapRecords_length (f : JValue -> nat -> option ArticleObject)
  (i : nat) (l : list JValue) (r : list ArticleObject) :
  mapRecords f i l = Some r -> List.length r = List.length l.
Proof.
  revert i r; induction l as [|v l IH]; intros i r; simpl.
  - intros H; injection H as <-. reflexivity.
  - destruct (f v i); [|discriminate].
    destruct (mapRecords f (S i) l) as [r'|] eqn:E; [|discriminate].
    intros H; injection H as <-. simpl. rewrite (IH _ _ E). reflexivity.
Qed.

(** The callback throws on the records that are [null] or have a
    generated article that is truthy and not a string, and on no
    other, whatever the index. *)
Lemma mapAiRecord_None (numberIsZero : jsstring -> bool)
  (selectedPerson : jsstring) (v : JValue) (idx : nat) :
  mapAiRecord numberIsZero selectedPerson v idx = None <->
  unmappable numberIsZero v.
Proof.
  unfold mapAiRecord, unmappable.
  destruct v as [| b | l | s | l | m]; cbn [getMember field];
    try unfold orValue.
  - split; [intros _; left; reflexivity | reflexivity].
  - split; [discriminate | intros [H | [g [H _]]]; discriminate H].
  - split; [discriminate | intros [H | [g [H _]]]; discriminate H].
  - split; [discriminate | intros [H | [g [H _]]]; discriminate H].
  - split; [discriminate | intros [H | [g [H _]]]; discriminate H].
  - destruct (lookup (lit "Generated article") m) as [g|].
    + destruct (truthyValue numberIsZero g) eqn:T.
      * destruct g as [| b | l | s | l | m'];
          (split;
           [ first [ discriminate
                   | intros _; right; eexists; split; [reflexivity|];
                     split; [exact T | intros s' H; discriminate H] ]
           | first [ reflexivity
                   | intros [H | [g [H [_ N]]]]; [discriminate H|];
                     injection H as <-; exfalso; exact (N _ eq_refl) ] ]).
      * split; [discriminate|].
        intros [H | [g' [H [T' _]]]]; [discriminate H|].
        injection H as <-. congruence.
    + split; [discriminate | intros [H | [g [H _]]]; discriminate H].
Qed.

Lemma mapRecords_None (numberIsZero : jsstring -> bool)
  (selectedPerson : jsstring) (i : nat) (l : list JValue) :
  mapRecords (mapAiRecord numberIsZero selectedPerson) i l = None <->
  exists v, In v l /\ unmappable numberIsZero v.
Proof.
  revert i; induction l as [|v l IH]; intros i; cbn [mapRecords].
  - split; [discriminate | intros [v [[] _]]].
  - destruct (mapAiRecord numberIsZero selectedPerson v i) as [a|] eqn:E.
    + assert (Hv : ~ unmappable numberIsZero v).
      { intros U. apply (mapAiRecord_None numberIsZero selectedPerson v i) in U.
        congruence. }
      destruct (mapRecords _ (S i) l) as [r|] eqn:R.
      * split; [discriminate|]. intros [w [[<- | Hin] U]]; [contradiction|].
        assert (N : mapRecords (mapAiRecord numberIsZero selectedPerson)
                      (S i) l = None) by (apply IH; eauto).
        congruence.
      * split; [|reflexivity]. intros _.
        destruct (proj1 (IH (S i)) R) as [w [Hin U]].
        exists w. split; [right; exact Hin | exact U].
    + split; [|reflexivity]. intros _. exists v. split; [left; reflexivity|].
      apply (mapAiRecord_None numberIsZero selectedPerson v i). exact E.
Qed.

(** X23.  The effect of the news screen for a response that is not
    empty and a person: it is not skipped; it throws exactly when one
    of the parsed records is [null] or has a generated article that is
    truthy and not a string; and when it sets the articles, the screen
    shows the empty state exactly when the sanitized response is the
    JSON text of an array without elements. *)
Theorem X23_empty_state (numberIsZero : jsstring -> bool)
  (selectedPerson raw : jsstring) :
  raw <> [] -> selectedPerson <> [] ->
  aiResponseEffect numberIsZero (Some raw) selectedPerson <> EffectSkipped /\
  (aiResponseEffect numberIsZero (Some raw) selectedPerson = EffectThrows <->
   exists records v,
     parseAiResponse (Some raw) = Some records /\ In v records /\
     unmappable numberIsZero v) /\
  (forall articles,
     aiResponseEffect numberIsZero (Some raw) selectedPerson
     = SetArticles articles ->
     (showsEmptyState (Some raw) selectedPerson articles = true <->
      startsWith (lit "[") (cleanAiText raw) = true /\
      JSON_parse (cleanAiText raw) = Some (JArray []))).
Proof.
  intros Hr Hp. pose proof (parseAiResponse_nil Hr) as Hnil.
  destruct (parseAiResponse_cases Hr) as [records [E _]].
  unfold aiResponseEffect. rewrite E in *.
  destruct (mapRecords (mapAiRecord numberIsZero selectedPerson) 0 records)
    as [mapped|] eqn:M.
  - split; [discriminate|]. split.
    + split; [discriminate|]. intros [recs [v [H [Hin U]]]].
      injection H as <-.
      assert (N : mapRecords (mapAiRecord numberIsZero selectedPerson) 0
                    records = None) by (apply mapRecords_None; eauto).
      congruence.
    + intros articles H; injection H as <-.
      apply mapRecords_length in M.
      unfold showsEmptyState. rewrite orElse_Some.
      rewrite (truthy_nonempty Hr), (truthy_nonempty Hp).
      cbn [negb orb andb]. rewrite orb_false_r, M, Nat.eqb_eq, <- Hnil.
      destruct records; simpl; split; congruence.
  - split; [discriminate|]. split; [|discriminate].
    split; [|reflexivity]. intros _.
    destruct (proj1 (mapRecords_None numberIsZero selectedPerson 0 records) M)
      as [v [Hin U]].
    exists records, v. repeat split; assumption.
Qed.

Lemma X23_empty_state_witness :
  showsEmptyState (Some (lit "[]")) (lit "Ada") [] = true <->
  startsWith (lit "[") (cleanAiText (lit "[]")) = true /\
  JSON_parse (cleanAiText (lit "[]")) = Some (JArray []).
Proof.
  apply (proj2 (proj2 (@X23_empty_state decimalIsZero (lit "Ada") (lit "[]")
                         ltac:(discriminate) ltac:(discriminate)))).
  reflexivity.
Defined.
